(** * cookieSyncWithConsent.js: consent-gated Prebid Server cookie sync

    A shallow embedding of [src/cookieSyncWithConsent.js] and the proofs of
    its sanitizers, its consent gate and its bidder dispatcher.

    Conventions of the embedding.
    - A JavaScript string is a [jstring], the list of its UTF-16 code units;
      [s2j] turns a literal into one.
    - A JavaScript number is a [number]: NaN, an infinity, or an exact
      decimal [m * 10^e].  The rounding of IEEE-754 doubles and the sign of
      zero are not modelled (integers up to 2^53 are exact in both).
    - An object is the list of its own properties in creation order, since
      [JSON.stringify] shows the order.
    - A thrown exception is the [Throw] case of [result]; what a handler
      does before it throws stays done.
    - The page is a state machine over the events that reach it: a message,
      the timer, the answer to the request, the completion of an image or
      frame.  An image or frame completes at most once, and console output
      and DOM insertion do not fail. *)

From Stdlib Require Import ZArith List Bool Ascii String Lia.
From Stdlib Require Import Decimal DecimalString DecimalZ DecimalN.
From Equations Require Import Equations.
Import ListNotations.

Set Warnings "-register-all".

Local Open Scope list_scope.
Local Open Scope Z_scope.

(* ================================================================== *)
(** ** JavaScript numbers and their conversions *)
(* ================================================================== *)

Module JS.

Definition jstring : Set := list N.

Definition ch (a : ascii) : N := N_of_ascii a.
Arguments ch a%_char.

Fixpoint s2j (s : string) : jstring :=
  match s with
  | EmptyString => []
  | String a s' => N_of_ascii a :: s2j s'
  end.

Arguments s2j s%_string : simpl never.

Fixpoint jseqb (s t : jstring) : bool :=
  match s, t with
  | [], [] => true
  | a :: s', b :: t' => (a =? b)%N && jseqb s' t'
  | _, _ => false
  end.

Definition jlength (s : jstring) : Z := Z.of_nat (List.length s).

Inductive number : Set :=
| NaN
| Inf (negative : bool)
| Fin (m e : Z).   (* the decimal m * 10^e *)

Definition Int (z : Z) : number := Fin z 0.

(** [isNaN] on a number. *)
Definition isNaN (v : number) : bool :=
  match v with NaN => true | _ => false end.

(** [v < 0] on a number (false for NaN). *)
Definition ltZero (v : number) : bool :=
  match v with
  | NaN => false
  | Inf neg => neg
  | Fin m _ => m <? 0
  end.

(** [v === w] on numbers: NaN differs from everything, itself included. *)
Definition strictEqNum (v w : number) : bool :=
  match v, w with
  | Inf a, Inf b => Bool.eqb a b
  | Fin m1 e1, Fin m2 e2 =>
      let lo := Z.min e1 e2 in
      (m1 * 10 ^ (e1 - lo) =? m2 * 10 ^ (e2 - lo))
  | _, _ => false
  end.

(** Truthiness of a number: false for NaN and for zero. *)
Definition truthyNum (v : number) : bool :=
  match v with
  | NaN => false
  | Inf _ => true
  | Fin m _ => negb (m =? 0)
  end.

(** The integer a decimal denotes, when it denotes one. *)
Definition asInteger (m e : Z) : option Z :=
  if 0 <=? e then Some (m * 10 ^ e)
  else if m mod 10 ^ (- e) =? 0 then Some (m / 10 ^ (- e)) else None.

Definition printZ (z : Z) : jstring := s2j (NilZero.string_of_int (Z.to_int z)).
Definition printN (z : Z) : jstring :=
  s2j (NilZero.string_of_uint (N.to_uint (Z.to_N z))).

Definition zeros (n : nat) : jstring := repeat (ch "0") n.

Fixpoint stripLeadingZeros (s : jstring) : jstring :=
  match s with
  | c :: s' => if (c =? ch "0")%N then stripLeadingZeros s' else s
  | [] => s
  end.

Definition stripTrailingZeros (s : jstring) : jstring :=
  List.rev (stripLeadingZeros (List.rev s)).

(** Number::toString for a decimal that is not an integer below 10^21:
    [ds] are its [k] significant digits and the value is [0.ds * 10^n]. *)
Definition printDigits (ds : jstring) (n : Z) : jstring :=
  let k := jlength ds in
  if (k <=? n) && (n <=? 21) then ds ++ zeros (Z.to_nat (n - k))
  else if (0 <? n) && (n <=? 21) then
    firstn (Z.to_nat n) ds ++ s2j "." ++ skipn (Z.to_nat n) ds
  else if (-6 <? n) && (n <=? 0) then
    s2j "0." ++ zeros (Z.to_nat (- n)) ++ ds
  else
    let ex := s2j (if 0 <=? n - 1 then "+" else "-") ++ printN (Z.abs (n - 1)) in
    if k =? 1 then ds ++ s2j "e" ++ ex
    else firstn 1 ds ++ s2j "." ++ skipn 1 ds ++ s2j "e" ++ ex.

(** ToString on a number. *)
Definition numberToString (v : number) : jstring :=
  match v with
  | NaN => s2j "NaN"
  | Inf false => s2j "Infinity"
  | Inf true => s2j "-Infinity"
  | Fin m e =>
      match asInteger m e with
      | Some z =>
          if Z.abs z <? 10 ^ 21 then printZ z
          else
            let ds0 := printN (Z.abs z) in
            (if z <? 0 then s2j "-" else []) ++
            printDigits (stripTrailingZeros ds0) (jlength ds0)
      | None =>
          let ds0 := printN (Z.abs m) in
          (if m <? 0 then s2j "-" else []) ++
          printDigits (stripTrailingZeros ds0) (jlength ds0 + e)
      end
  end.

(** StrWhiteSpaceChar: the white space and line terminator code units. *)
Definition isWhiteSpace (c : N) : bool :=
  match c with
  | 9 | 10 | 11 | 12 | 13 | 32 | 160 | 5760 | 8232 | 8233 | 8239 | 8287
  | 12288 | 65279 => true
  | _ => (8192 <=? c)%N && (c <=? 8202)%N
  end%N.

Fixpoint trimStart (s : jstring) : jstring :=
  match s with
  | c :: s' => if isWhiteSpace c then trimStart s' else s
  | [] => s
  end.

Definition digitOf (c : N) : option (uint -> uint) :=
  match c with
  | 48 => Some D0 | 49 => Some D1 | 50 => Some D2 | 51 => Some D3
  | 52 => Some D4 | 53 => Some D5 | 54 => Some D6 | 55 => Some D7
  | 56 => Some D8 | 57 => Some D9 | _ => None
  end%N.

Definition isDigit (c : N) : bool :=
  match digitOf c with Some _ => true | None => false end.

(** The longest prefix of decimal digits, as a [uint]. *)
Fixpoint digitsPrefix (s : jstring) : uint :=
  match s with
  | c :: s' =>
      match digitOf c with
      | Some d => d (digitsPrefix s')
      | None => Nil
      end
  | [] => Nil
  end.

(** [parseInt(s, 10)] on a string. *)
Definition parseInt (s : jstring) : number :=
  let t := trimStart s in
  let '(neg, body) :=
    match t with
    | c :: r =>
        if (c =? ch "-")%N then (true, r)
        else if (c =? ch "+")%N then (false, r) else (false, t)
    | [] => (false, t)
    end in
  match digitsPrefix body with
  | Nil => NaN
  | u => Int (if neg then - Z.of_uint u else Z.of_uint u)
  end.

(** [parseInt(v, 10)] on a number: ToString first. *)
Definition parseIntNum (v : number) : number := parseInt (numberToString v).

(** *** Values, exceptions, property access *)

Inductive exn : Set := TypeError | SyntaxError | URIError.

Inductive result (A : Set) : Set :=
| Ok (a : A)
| Throw (e : exn).
Arguments Ok {A} a.
Arguments Throw {A} e.

Definition bind {A B : Set} (r : result A) (k : A -> result B) : result B :=
  match r with Ok a => k a | Throw e => Throw e end.

Notation "x <- r ;; k" := (bind r (fun x => k))
  (at level 61, r at next level, right associativity).

(** The values that JSON.parse and structured messages carry, and
    [undefined].  An object is the list of its own properties in creation
    order, every key once. *)
Inductive jsval : Set :=
| VUndef
| VNull
| VBool (b : bool)
| VNum (n : number)
| VStr (s : jstring)
| VArr (l : list jsval)
| VObj (fields : list (jstring * jsval)).

Fixpoint lookup (k : jstring) (fs : list (jstring * jsval)) : option jsval :=
  match fs with
  | [] => None
  | (k', v) :: r => if jseqb k k' then Some v else lookup k r
  end.

(** [o[k] = v] on the own properties: in place when [k] exists. *)
Fixpoint objSet (k : jstring) (v : jsval) (fs : list (jstring * jsval))
  : list (jstring * jsval) :=
  match fs with
  | [] => [(k, v)]
  | (k', v') :: r =>
      if jseqb k k' then (k', v) :: r else (k', v') :: objSet k v r
  end.

(** ToBoolean. *)
Definition truthy (v : jsval) : bool :=
  match v with
  | VUndef | VNull => false
  | VBool b => b
  | VNum n => truthyNum n
  | VStr s => match s with [] => false | _ => true end
  | VArr _ | VObj _ => true
  end.

Fixpoint joinWith (sep : jstring) (l : list jstring) : jstring :=
  match l with
  | [] => []
  | [x] => x
  | x :: r => x ++ sep ++ joinWith sep r
  end.

(** ToString.  An array is joined with commas, null and undefined elements
    printing as nothing.  A plain object prints as [[object Object]] through
    Object.prototype.toString; an own [toString] property, which no parsed
    or cloned value can make callable, leaves it without a primitive value:
    TypeError. *)
Fixpoint toStringVal (v : jsval) : result jstring :=
  match v with
  | VUndef => Ok (s2j "undefined")
  | VNull => Ok (s2j "null")
  | VBool true => Ok (s2j "true")
  | VBool false => Ok (s2j "false")
  | VNum n => Ok (numberToString n)
  | VStr s => Ok s
  | VArr l =>
      let fix elems (l : list jsval) : result (list jstring) :=
        match l with
        | [] => Ok []
        | x :: r =>
            s <- match x with
                 | VUndef | VNull => Ok []
                 | _ => toStringVal x
                 end ;;
            ss <- elems r ;;
            Ok (s :: ss)
        end in
      ss <- elems l ;; Ok (joinWith (s2j ",") ss)
  | VObj fs =>
      match lookup (s2j "toString") fs with
      | Some _ => Throw TypeError
      | None => Ok (s2j "[object Object]")
      end
  end.

(** [v.name] for a name that no prototype defines, or for [length]:
    TypeError on null and undefined, the own property of an object, the
    length of an array or string, undefined otherwise. *)
Definition getProp (v : jsval) (name : jstring) : result jsval :=
  match v with
  | VUndef | VNull => Throw TypeError
  | VObj fs =>
      Ok match lookup name fs with Some x => x | None => VUndef end
  | VArr l =>
      Ok (if jseqb name (s2j "length") then VNum (Int (Z.of_nat (List.length l)))
          else VUndef)
  | VStr s =>
      Ok (if jseqb name (s2j "length") then VNum (Int (jlength s)) else VUndef)
  | VBool _ | VNum _ => Ok VUndef
  end.

(** [v === 'lit'] against a string literal. *)
Definition strictEqStr (v : jsval) (lit : jstring) : bool :=
  match v with VStr s => jseqb s lit | _ => false end.

(** [v == 'lit'] against a string literal that is not numeric: an array or
    object is compared through its primitive value, a number or boolean
    through ToNumber of the literal, which is NaN. *)
Definition looseEqStr (v : jsval) (lit : jstring) : result bool :=
  match v with
  | VStr s => Ok (jseqb s lit)
  | VArr _ | VObj _ => s <- toStringVal v ;; Ok (jseqb s lit)
  | VUndef | VNull | VBool _ | VNum _ => Ok false
  end.

(** [v === 0]. *)
Definition strictEqZero (v : jsval) : bool :=
  match v with VNum n => strictEqNum n (Int 0) | _ => false end.

(** *** JSON.parse *)

Fixpoint stripPrefix (p s : jstring) : option jstring :=
  match p, s with
  | [], _ => Some s
  | a :: p', b :: s' => if (a =? b)%N then stripPrefix p' s' else None
  | _ :: _, [] => None
  end.

(** JSON white space: tab, line feed, carriage return, space. *)
Fixpoint skipWs (s : jstring) : jstring :=
  match s with
  | c :: r =>
      if ((c =? 9) || (c =? 10) || (c =? 13) || (c =? 32))%N then skipWs r
      else s
  | [] => s
  end.

Definition hexOf (c : N) : option N :=
  if ((48 <=? c) && (c <=? 57))%N then Some (c - 48)%N
  else if ((97 <=? c) && (c <=? 102))%N then Some (c - 87)%N
  else if ((65 <=? c) && (c <=? 70))%N then Some (c - 55)%N
  else None.

Definition hex4 (a b c d : N) : option N :=
  match hexOf a, hexOf b, hexOf c, hexOf d with
  | Some x, Some y, Some z, Some w => Some (((x * 16 + y) * 16 + z) * 16 + w)%N
  | _, _, _, _ => None
  end.

Definition escapeOf (c : N) : option N :=
  if (c =? 34)%N then Some 34%N
  else if (c =? ch "\")%N then Some (ch "\")
  else if (c =? ch "/")%N then Some (ch "/")
  else if (c =? ch "b")%N then Some 8%N
  else if (c =? ch "f")%N then Some 12%N
  else if (c =? ch "n")%N then Some 10%N
  else if (c =? ch "r")%N then Some 13%N
  else if (c =? ch "t")%N then Some 9%N
  else None.

Definition consTo (c : N) (r : option (jstring * jstring))
  : option (jstring * jstring) :=
  match r with Some (str, rest) => Some (c :: str, rest) | None => None end.

(** The characters of a string literal after its opening quote, up to and
    including the closing quote. *)
Fixpoint parseStringBody (s : jstring) : option (jstring * jstring) :=
  match s with
  | [] => None
  | c :: r =>
      if (c =? 34)%N then Some ([], r)
      else if (c =? ch "\")%N then
        match r with
        | e :: r' =>
            if (e =? ch "u")%N then
              match r' with
              | h1 :: h2 :: h3 :: h4 :: r'' =>
                  match hex4 h1 h2 h3 h4 with
                  | Some u => consTo u (parseStringBody r'')
                  | None => None
                  end
              | _ => None
              end
            else
              match escapeOf e with
              | Some u => consTo u (parseStringBody r')
              | None => None
              end
        | [] => None
        end
      else if (c <? 32)%N then None
      else consTo c (parseStringBody r)
  end.

Fixpoint spanDigits (s : jstring) : jstring * jstring :=
  match s with
  | c :: r =>
      if isDigit c then let '(ds, rest) := spanDigits r in (c :: ds, rest)
      else ([], s)
  | [] => ([], [])
  end.

Definition digitsToZ (ds : jstring) : Z :=
  fold_left (fun acc c => acc * 10 + (Z.of_N c - 48)) ds 0.

(** A JSON number: [-]int[.frac][(e|E)[+|-]digits], no leading zeros. *)
Definition parseNumber (s : jstring) : option (number * jstring) :=
  let '(neg, s1) :=
    match s with
    | c :: r => if (c =? ch "-")%N then (true, r) else (false, s)
    | [] => (false, s)
    end in
  let '(ip, s2) :=
    match s1 with
    | c :: r => if (c =? ch "0")%N then ([c], r) else spanDigits s1
    | [] => ([], s1)
    end in
  match ip with
  | [] => None
  | _ =>
      let frac :=
        match s2 with
        | c :: r =>
            if (c =? ch ".")%N then
              match spanDigits r with
              | ([], _) => None
              | (fp, s3) => Some (fp, s3)
              end
            else Some ([], s2)
        | [] => Some ([], s2)
        end in
      match frac with
      | None => None
      | Some (fp, s3) =>
          let m := digitsToZ (ip ++ fp) in
          let m := if neg then - m else m in
          let e0 := - jlength fp in
          match s3 with
          | c :: r =>
              if ((c =? ch "e") || (c =? ch "E"))%N then
                let '(eneg, r1) :=
                  match r with
                  | c1 :: r' =>
                      if (c1 =? ch "-")%N then (true, r')
                      else if (c1 =? ch "+")%N then (false, r') else (false, r)
                  | [] => (false, r)
                  end in
                match spanDigits r1 with
                | ([], _) => None
                | (ep, s4) =>
                    let x := digitsToZ ep in
                    Some (Fin m (e0 + (if eneg then - x else x)), s4)
                end
              else Some (Fin m e0, s3)
          | [] => Some (Fin m e0, s3)
          end
      end
  end.

Definition literal (w : string) (v : jsval) (s : jstring)
  : option (jsval * jstring) :=
  match stripPrefix (s2j w) s with
  | Some r => Some (v, r)
  | None => None
  end.

(** Recursive descent; every call spends one unit of [fuel]. *)
Fixpoint parseValue (fuel : nat) (s : jstring) {struct fuel}
  : option (jsval * jstring) :=
  match fuel with
  | O => None
  | S f =>
      match skipWs s with
      | [] => None
      | c :: r =>
          if (c =? ch "{")%N then
            match skipWs r with
            | c2 :: r2 =>
                if (c2 =? ch "}")%N then Some (VObj [], r2)
                else parseMembers f r []
            | [] => None
            end
          else if (c =? ch "[")%N then
            match skipWs r with
            | c2 :: r2 =>
                if (c2 =? ch "]")%N then Some (VArr [], r2)
                else parseElements f r []
            | [] => None
            end
          else if (c =? 34)%N then
            match parseStringBody r with
            | Some (str, r') => Some (VStr str, r')
            | None => None
            end
          else if (c =? ch "t")%N then literal "true" (VBool true) (c :: r)
          else if (c =? ch "f")%N then literal "false" (VBool false) (c :: r)
          else if (c =? ch "n")%N then literal "null" VNull (c :: r)
          else
            match parseNumber (c :: r) with
            | Some (n, r') => Some (VNum n, r')
            | None => None
            end
      end
  end
with parseElements (fuel : nat) (s : jstring) (acc : list jsval) {struct fuel}
  : option (jsval * jstring) :=
  match fuel with
  | O => None
  | S f =>
      match parseValue f s with
      | Some (v, r) =>
          match skipWs r with
          | c :: r' =>
              if (c =? ch ",")%N then parseElements f r' (v :: acc)
              else if (c =? ch "]")%N then Some (VArr (List.rev (v :: acc)), r')
              else None
          | [] => None
          end
      | None => None
      end
  end
with parseMembers (fuel : nat) (s : jstring) (acc : list (jstring * jsval))
  {struct fuel} : option (jsval * jstring) :=
  match fuel with
  | O => None
  | S f =>
      match skipWs s with
      | q :: r =>
          if (q =? 34)%N then
            match parseStringBody r with
            | Some (k, r1) =>
                match skipWs r1 with
                | c :: r2 =>
                    if (c =? ch ":")%N then
                      match parseValue f r2 with
                      | Some (v, r3) =>
                          match skipWs r3 with
                          | c3 :: r4 =>
                              if (c3 =? ch ",")%N
                              then parseMembers f r4 (objSet k v acc)
                              else if (c3 =? ch "}")%N
                              then Some (VObj (objSet k v acc), r4)
                              else None
                          | [] => None
                          end
                      | None => None
                      end
                    else None
                | [] => None
                end
            | None => None
            end
          else None
      | [] => None
      end
  end.

(** [JSON.parse(text)]: one value between optional white space, or a
    SyntaxError. *)
Definition JSON_parse (text : jstring) : result jsval :=
  match parseValue (2 * List.length text + 2) text with
  | Some (v, r) =>
      match skipWs r with
      | [] => Ok v
      | _ :: _ => Throw SyntaxError
      end
  | None => Throw SyntaxError
  end.

(** *** JSON.stringify *)

Definition hexDigit (n : N) : N := if (n <? 10)%N then (48 + n)%N else (87 + n)%N.

(** QuoteJSONString on one code unit. *)
Definition quoteUnit (c : N) : jstring :=
  if (c =? 8)%N then s2j "\b"
  else if (c =? 9)%N then s2j "\t"
  else if (c =? 10)%N then s2j "\n"
  else if (c =? 12)%N then s2j "\f"
  else if (c =? 13)%N then s2j "\r"
  else if (c =? 34)%N then [ch "\"; 34%N]
  else if (c =? ch "\")%N then s2j "\\"
  else if ((c <? 32) || ((55296 <=? c) && (c <=? 57343)))%N then
    s2j "\u" ++ [hexDigit (c / 4096); hexDigit ((c / 256) mod 16);
                 hexDigit ((c / 16) mod 16); hexDigit (c mod 16)]
  else [c].

Definition quoteJSON (s : jstring) : jstring :=
  34%N :: flat_map quoteUnit s ++ [34%N].

(** A canonical array index: it orders before the other keys. *)
Definition arrayIndex (k : jstring) : option Z :=
  match k with
  | [] => None
  | c :: r =>
      if forallb isDigit k && (negb (c =? ch "0")%N || match r with [] => true | _ => false end)
      then let z := digitsToZ k in if z <? 4294967295 then Some z else None
      else None
  end.

Fixpoint insertKey {V} (z : Z) (kv : jstring * V) (l : list (Z * (jstring * V)))
  : list (Z * (jstring * V)) :=
  match l with
  | [] => [(z, kv)]
  | (z', kv') :: r =>
      if z <? z' then (z, kv) :: l else (z', kv') :: insertKey z kv r
  end.

(** OrdinaryOwnPropertyKeys: array indices ascending, then the other keys in
    creation order. *)
Definition ownProperties {V} (fs : list (jstring * V)) : list (jstring * V) :=
  let idx :=
    fold_left (fun acc kv =>
                 match arrayIndex (fst kv) with
                 | Some z => insertKey z kv acc
                 | None => acc
                 end) fs [] in
  map snd idx ++
  filter (fun kv => match arrayIndex (fst kv) with Some _ => false | None => true end) fs.

Definition member (kv : jstring * option jstring) : list jstring :=
  match kv with
  | (k, Some x) => [quoteJSON k ++ s2j ":" ++ x]
  | (_, None) => []
  end.

(** [JSON.stringify(v)] for a value that is not undefined.  A property
    whose value is undefined is left out; in an array it prints as null,
    like NaN and the infinities anywhere. *)
Fixpoint JSON_stringify (v : jsval) : jstring :=
  match v with
  | VUndef | VNull => s2j "null"
  | VBool true => s2j "true"
  | VBool false => s2j "false"
  | VNum (Fin m e) => numberToString (Fin m e)
  | VNum _ => s2j "null"
  | VStr s => quoteJSON s
  | VArr l => s2j "[" ++ joinWith (s2j ",") (map JSON_stringify l) ++ s2j "]"
  | VObj fs =>
      let fix values (fs : list (jstring * jsval)) : list (jstring * option jstring) :=
        match fs with
        | [] => []
        | (k, VUndef) :: r => (k, None) :: values r
        | (k, x) :: r => (k, Some (JSON_stringify x)) :: values r
        end in
      s2j "{" ++ joinWith (s2j ",") (flat_map member (ownProperties (values fs)))
          ++ s2j "}"
  end.

(** *** decodeURIComponent *)

(** The [n] continuation octets [%XX] of a UTF-8 sequence, each [10xxxxxx]. *)
Fixpoint continuation (n : nat) (s : jstring) : option (list N * jstring) :=
  match n with
  | O => Some ([], s)
  | S n' =>
      match s with
      | p :: h1 :: h2 :: r =>
          match hexOf h1, hexOf h2 with
          | Some a, Some b =>
              let o := (a * 16 + b)%N in
              if ((p =? ch "%") && (128 <=? o) && (o <? 192))%N then
                match continuation n' r with
                | Some (os, r') => Some (o :: os, r')
                | None => None
                end
              else None
          | _, _ => None
          end
      | _ => None
      end
  end.

(** The code point of a lead octet and its continuation octets, when they
    are its shortest encoding and it is no surrogate. *)
Definition codePoint (b : N) (os : list N) : option N :=
  let v := fold_left (fun acc o => acc * 64 + (o - 128))%N os
             (match os with
              | [_] => b - 192 | [_; _] => b - 224 | _ => b - 240
              end)%N in
  let lo := match os with [_] => 128 | [_; _] => 2048 | _ => 65536 end%N in
  if ((lo <=? v) && (v <=? 1114111) && negb ((55296 <=? v) && (v <=? 57343)))%N
  then Some v else None.

Definition utf16 (v : N) : jstring :=
  if (v <? 65536)%N then [v]
  else [(55296 + (v - 65536) / 1024)%N; (56320 + (v - 65536) mod 1024)%N].

Fixpoint decodeFrom (fuel : nat) (s : jstring) : result jstring :=
  match fuel, s with
  | _, [] => Ok []
  | O, _ :: _ => Throw URIError
  | S f, c :: r =>
      if negb (c =? ch "%")%N then t <- decodeFrom f r ;; Ok (c :: t)
      else
        match r with
        | h1 :: h2 :: r' =>
            match hexOf h1, hexOf h2 with
            | Some a, Some b =>
                let o := (a * 16 + b)%N in
                if (o <? 128)%N then t <- decodeFrom f r' ;; Ok (o :: t)
                else
                  let n := if (o <? 192)%N then 1%nat
                           else if (o <? 224)%N then 2%nat
                           else if (o <? 240)%N then 3%nat
                           else if (o <? 248)%N then 4%nat else 5%nat in
                  if (n =? 1)%nat || (4 <? n)%nat then Throw URIError
                  else
                    match continuation (n - 1) r' with
                    | Some (os, r'') =>
                        match codePoint o os with
                        | Some v => t <- decodeFrom f r'' ;; Ok (utf16 v ++ t)
                        | None => Throw URIError
                        end
                    | None => Throw URIError
                    end
            | _, _ => Throw URIError
            end
        | _ => Throw URIError
        end
  end.

(** [decodeURIComponent(s)]. *)
Definition decodeURIComponent (s : jstring) : result jstring :=
  decodeFrom (List.length s) s.

End JS.
Export JS.

(* ================================================================== *)
(** ** Regular expressions and the URL validator *)
(* ================================================================== *)

Module Regex.

(** The fragment of the pattern language [isValidUrl] is written in. *)
Inductive re : Type :=
| Eps
| Cls (p : N -> bool)                       (* one code unit of a class *)
| Seq (a b : re)
| Alt (a b : re)
| Rep (lo : nat) (hi : option nat) (a : re) (* a{lo,hi}, hi absent: a{lo,} *)
| NotAhead (a : re)                         (* (?!a) *)
| AtEnd.                                    (* $ *)

(** Backtracking matcher: [matches r s k] holds when [r] matches a prefix of
    [s] and the continuation [k] accepts what is left.  An iteration beyond
    the minimum that consumes nothing is refused, as RepeatMatcher does.
    Alternatives are tried in order and only on failure of the earlier one. *)
Fixpoint matches (r : re) (s : jstring) (k : jstring -> bool) {struct r} : bool :=
  match r with
  | Eps => k s
  | Cls p => match s with c :: s' => if p c then k s' else false | [] => false end
  | Seq a b => matches a s (fun s' => matches b s' k)
  | Alt a b => if matches a s k then true else matches b s k
  | Rep lo hi a =>
      (fix loop (fuel need : nat) (s : jstring) {struct fuel} : bool :=
         match need with
         | S need' =>
             match fuel with
             | S f => matches a s (fun s' => loop f need' s')
             | O => false
             end
         | O =>
             if match fuel with
                | S f =>
                    matches a s (fun s' =>
                      if (List.length s' <? List.length s)%nat
                      then loop f O s' else false)
                | O => false
                end
             then true else k s
         end)
        (match hi with Some h => h | None => (lo + List.length s)%nat end) lo s
  | NotAhead a => if matches a s (fun _ => true) then false else k s
  | AtEnd => match s with [] => k s | _ :: _ => false end
  end.

Definition range (lo hi c : N) : bool := ((lo <=? c) && (c <=? hi))%N.

(** Canonicalize of the ignore-case flag on the code units of a literal. *)
Definition toUpper (c : N) : N := if range 97 122 c then (c - 32)%N else c.

Definition chr (a : ascii) : re := Cls (fun c => (toUpper c =? toUpper (ch a))%N).

Fixpoint lit (w : string) : re :=
  match w with
  | EmptyString => Eps
  | String a w' => Seq (chr a) (lit w')
  end.

Definition opt (a : re) : re := Rep 0 (Some 1%nat) a.
Definition plus (a : re) : re := Rep 1 None a.
Definition star (a : re) : re := Rep 0 None a.

Fixpoint seqs (l : list re) : re :=
  match l with
  | [] => Eps
  | [a] => a
  | a :: r => Seq a (seqs r)
  end.

Fixpoint alts (a : re) (l : list re) : re :=
  match l with
  | [] => a
  | b :: r => Alt a (alts b r)
  end.

(** [\d], [\S] and the two host classes under the ignore-case flag. *)
Definition digit : re := Cls (range 48 57).
Definition nonSpace : re := Cls (fun c => negb (isWhiteSpace c)).
Definition isAlpha (c : N) : bool :=
  range 97 122 c || range 65 90 c || range 161 65535 c.
Definition alpha : re := Cls isAlpha.
Definition alnum : re := Cls (fun c => isAlpha c || range 48 57 c).
Definition alnumDash : re :=
  Cls (fun c => isAlpha c || range 48 57 c || (c =? ch "_")%N || (c =? ch "-")%N).
Definition oneOf (lo hi : ascii) : re := Cls (range (ch lo) (ch hi)).

(** [(?:\.\d{1,3}){n}] *)
Definition dotDigits (n : nat) : re :=
  Rep n (Some n) (Seq (chr ".") (Rep 1 (Some 3%nat) digit)).

Definition scheme : re :=
  Seq (opt (Seq (alts (Seq (lit "http") (opt (chr "s"))) [lit "ftp"]) (chr ":")))
      (lit "//").

Definition userinfo : re :=
  opt (seqs [plus nonSpace; opt (Seq (chr ":") (star nonSpace)); chr "@"]).

Definition publicIp : re :=
  seqs
    [ NotAhead (Seq (alts (lit "10") [lit "127"]) (dotDigits 3));
      NotAhead (Seq (alts (lit "169.254") [lit "192.168"]) (dotDigits 2));
      NotAhead (seqs [lit "172."; 
                      alts (Seq (chr "1") (oneOf "6" "9"))
                           [Seq (chr "2") digit; Seq (chr "3") (oneOf "0" "1")];
                      dotDigits 2]);
      alts (Seq (oneOf "1" "9") (opt digit))
           [seqs [chr "1"; digit; digit];
            seqs [chr "2"; oneOf "0" "1"; digit];
            seqs [lit "22"; oneOf "0" "3"]];
      Rep 2 (Some 2%nat)
          (Seq (chr ".")
               (alts (Seq (opt (chr "1")) (Rep 1 (Some 2%nat) digit))
                     [seqs [chr "2"; oneOf "0" "4"; digit];
                      Seq (lit "25") (oneOf "0" "5")]));
      Seq (chr ".")
          (alts (Seq (oneOf "1" "9") (opt digit))
                [seqs [chr "1"; digit; digit];
                 seqs [chr "2"; oneOf "0" "4"; digit];
                 Seq (lit "25") (oneOf "0" "4")]) ].

Definition hostName : re :=
  Seq (plus (seqs [opt (Seq alnum (Rep 0 (Some 62%nat) alnumDash)); alnum; chr "."]))
      (Seq (Rep 2 None alpha) (opt (chr "."))).

Definition port : re := opt (Seq (chr ":") (Rep 2 (Some 5%nat) digit)).

Definition path : re :=
  opt (Seq (Cls (fun c => (c =? ch "/") || (c =? ch "?") || (c =? ch "#"))%N)
           (star nonSpace)).

(** The pattern of [isValidUrl]; its leading [^] is the start of [test]. *)
Definition isValidUrlPattern : re :=
  seqs [scheme; userinfo; Alt publicIp hostName; port; path; AtEnd].

(** [isValidUrl.test(s)] on a string. *)
Definition test (s : jstring) : bool :=
  matches isValidUrlPattern s (fun _ => true).

End Regex.

(* ================================================================== *)
(** ** The page parameters and their sanitizers *)
(* ================================================================== *)

Import Regex.

Definition VALID_ENDPOINTS : list (jstring * jstring) :=
  [ (s2j "rubicon", s2j "https://prebid-server.rubiconproject.com/cookie_sync");
    (s2j "appnexus", s2j "https://prebid.adnxs.com/pbs/v1/cookie_sync") ].

Fixpoint assoc (k : jstring) (l : list (jstring * jstring)) : option jstring :=
  match l with
  | [] => None
  | (k', v) :: r => if jseqb k k' then Some v else assoc k r
  end.

Fixpoint takeValue (s : jstring) : jstring :=
  match s with
  | c :: r => if ((c =? ch "&") || (c =? ch "#"))%N then [] else c :: takeValue r
  | [] => []
  end.

(** The leftmost place where a question mark or ampersand is followed by
    [name] and an equals sign, for a name without pattern operators: the
    capture, which runs up to the next ampersand or hash. *)
Fixpoint execParam (name s : jstring) : option jstring :=
  match s with
  | [] => None
  | c :: r =>
      if ((c =? ch "?") || (c =? ch "&"))%N then
        match stripPrefix (name ++ s2j "=") r with
        | Some rest => Some (takeValue rest)
        | None => execParam name r
        end
      else execParam name r
  end.

Definition plusToSpace (s : jstring) : jstring :=
  map (fun c => if (c =? ch "+")%N then ch " " else c) s.

Definition parseQueryParam (name : string) (urlSearch : jstring) : result jstring :=
  match execParam (s2j name) urlSearch with
  | None => Ok []
  | Some capture => decodeURIComponent (plusToSpace capture)
  end.

Definition sanitizeEndpoint (value : jstring) : jstring :=
  match value, assoc value VALID_ENDPOINTS with
  | _ :: _, Some url => url
  | _, _ => s2j "https://prebid.adnxs.com/pbs/v1/cookie_sync"
  end.

(** [s.split(sep)] on a one-unit separator. *)
Fixpoint split (sep : N) (s : jstring) : list jstring :=
  match s with
  | [] => [[]]
  | c :: r =>
      if (c =? sep)%N then [] :: split sep r
      else match split sep r with
           | x :: l => (c :: x) :: l
           | [] => [[c]]
           end
  end.

(** [/^\d+$/.test(s)] *)
Definition allDigits (s : jstring) : bool :=
  match s with [] => false | _ => forallb isDigit s end.

(** The reducer of [sanitizeEndpointArgs].  Assigning a string or number to
    [__proto__] reaches the setter of Object.prototype, which ignores it. *)
Definition addArg (keyValues : list (jstring * jsval)) (key : jstring)
  : list (jstring * jsval) :=
  match split (ch ":") key with
  | [k; v] =>
      match k, v with
      | _ :: _, _ :: _ =>
          if jseqb k (s2j "__proto__") then keyValues
          else objSet k (if allDigits v then VNum (parseInt v) else VStr v) keyValues
      | _, _ => keyValues
      end
  | _ => keyValues
  end.

Definition sanitizeEndpointArgs (value : jstring) : jsval :=
  match value with
  | [] => VUndef
  | _ =>
      match fold_left addArg (split (ch ",") value) [] with
      | [] => VUndef
      | argProperties => VObj argProperties
      end
  end.

Definition MAX_SAFE : number := Int 9007199254740991.

Definition sanitizeSyncCount (value : number) : number :=
  if isNaN value || ltZero value then MAX_SAFE else value.

Definition sanitizeScope (value : number) : number :=
  if strictEqNum value (Int 0) || strictEqNum value (Int 1) then value
  else Int 1.

Definition sanitizeTimeout (value : number) : number :=
  if negb (isNaN value) && strictEqNum value (parseIntNum value) then value
  else Int 10000.

(** [parseInt((maxSyncCountParam) ? maxSyncCountParam : 10, 10)], sanitized. *)
Definition maxSyncCount (maxSyncCountParam : jstring) : number :=
  sanitizeSyncCount
    (match maxSyncCountParam with
     | _ :: _ => parseInt maxSyncCountParam
     | [] => parseIntNum (Int 10)
     end).

(** The constants the script computes from [window.location.search] when it
    loads; a URIError there ends the script before anything else runs. *)
Record config : Set := {
  ENDPOINT : jstring;
  ENDPOINT_ARGS : jsval;
  MAX_SYNC_COUNT : number;
  TIMEOUT : number;
  DEFAULT_GDPR_SCOPE : number
}.

Definition loadConfig (search : jstring) : result config :=
  endpoint <- parseQueryParam "endpoint" search ;;
  args <- parseQueryParam "args" search ;;
  maxSyncCountParam <- parseQueryParam "max_sync_count" search ;;
  timeout <- parseQueryParam "timeout" search ;;
  scope <- parseQueryParam "defaultGdprScope" search ;;
  Ok {| ENDPOINT := sanitizeEndpoint endpoint;
        ENDPOINT_ARGS := sanitizeEndpointArgs args;
        MAX_SYNC_COUNT := maxSyncCount maxSyncCountParam;
        TIMEOUT := sanitizeTimeout (parseInt timeout);
        DEFAULT_GDPR_SCOPE := sanitizeScope (parseInt scope) |}.

(* ================================================================== *)
(** ** Effects *)
(* ================================================================== *)

(** What the script does to its surroundings. *)
Inductive action : Set :=
| ConsoleLog (msg : jstring)
| XhrSend (url body : jstring)       (* POST with credentials, text/plain *)
| ImageSrc (url : jstring)           (* a new Image whose src is assigned *)
| IframeInsert (bidder url : jstring) (* a 0x0 frame inserted in the page *)
| PostMessage                        (* send-consent-data to the parent *)
| Uncaught (e : exn).                (* an exception leaves an event handler *)

(** A computation that acts, then returns or throws. *)
Definition M (A : Set) : Set := (list action * result A)%type.

Definition ret {A : Set} (a : A) : M A := ([], Ok a).
Definition emit (a : action) : M unit := ([a], Ok tt).
Definition lift {A : Set} (r : result A) : M A := ([], r).

Definition bindM {A B : Set} (m : M A) (k : A -> M B) : M B :=
  match m with
  | (t, Ok a) => let '(t', r) := k a in (t ++ t', r)
  | (t, Throw e) => (t, Throw e)
  end.

Notation "x <~ m ;; k" := (bindM m (fun x => k))
  (at level 61, m at next level, right associativity).
Notation "m ;;; k" := (bindM m (fun _ => k))
  (at level 61, right associativity).

(* ================================================================== *)
(** ** The bidder dispatcher *)
(* ================================================================== *)

(** What a call did with its continuation [done]. *)
Inductive handoff : Set :=
| CalledNow     (* done() ran before the call returned *)
| OnImage       (* done listens to load and error of the image *)
| OnIframe      (* done is the onload of the frame *)
| Dropped.      (* the call returned and nothing holds done *)

Definition dquote : jstring := [34%N].

Definition triggerPixel (url : jsval) : M handoff :=
  u <~ lift (toStringVal url) ;;
  emit (ImageSrc u) ;;;
  ret OnImage.

Definition triggerIframeLoad (url bidder : jsval) : M handoff :=
  if negb (truthy url) then ret Dropped
  else
    b <~ lift (toStringVal bidder) ;;
    u <~ lift (toStringVal url) ;;
    emit (IframeInsert b u) ;;;
    ret OnIframe.

Definition doBidderSync (type url bidder : jsval) : M handoff :=
  invalid <~ lift (if negb (truthy url) then Ok true
                   else u <- toStringVal url ;; Ok (negb (test u))) ;;
  if invalid : bool then
    b <~ lift (toStringVal bidder) ;;
    u <~ lift (toStringVal url) ;;
    emit (ConsoleLog (s2j "No valid sync url for bidder " ++ dquote ++ b
                        ++ dquote ++ s2j ": " ++ u)) ;;;
    ret CalledNow
  else if strictEqStr type (s2j "image") || strictEqStr type (s2j "redirect") then
    b <~ lift (toStringVal bidder) ;;
    emit (ConsoleLog (s2j "Invoking image pixel user sync for bidder: "
                        ++ dquote ++ b ++ dquote)) ;;;
    triggerPixel url
  else
    iframe <~ lift (looseEqStr type (s2j "iframe")) ;;
    if iframe : bool then
      b <~ lift (toStringVal bidder) ;;
      emit (ConsoleLog (s2j "Invoking iframe pixel user sync for bidder: "
                          ++ dquote ++ b ++ dquote)) ;;;
      triggerIframeLoad url bidder
    else
      t <~ lift (toStringVal type) ;;
      b <~ lift (toStringVal bidder) ;;
      emit (ConsoleLog (s2j "User sync type " ++ dquote ++ t ++ dquote
                          ++ s2j " not supported for bidder: "
                          ++ dquote ++ b ++ dquote)) ;;;
      ret CalledNow.

(** [a.pop()] on the elements of an array: the last one and the others. *)
Fixpoint pop {A} (l : list A) : option (A * list A) :=
  match l with
  | [] => None
  | x :: r =>
      match pop r with
      | None => Some (x, [])
      | Some (y, r') => Some (y, x :: r')
      end
  end.

(** The arguments of the call at line 75, evaluated left to right. *)
Definition doBidderSyncOf (thisSync : jsval) : M handoff :=
  usersync <~ lift (getProp thisSync (s2j "usersync")) ;;
  type <~ lift (getProp usersync (s2j "type")) ;;
  url <~ lift (getProp usersync (s2j "url")) ;;
  bidder <~ lift (getProp thisSync (s2j "bidder")) ;;
  doBidderSync type url bidder.

(** How a run of [doAllSyncs] ends. *)
Inductive stop : Set :=
| Drained       (* the array is empty *)
| Waiting       (* an image or frame holds the continuation *)
| Lost          (* the continuation was dropped *)
| Threw (e : exn).

Record run : Set := {
  acts : list action;
  ending : stop;
  remaining : list jsval   (* the elements left in the array *)
}.

Definition after (t : list action) (r : run) : run :=
  {| acts := t ++ acts r; ending := ending r; remaining := remaining r |}.

Definition inspect {A} (a : A) : {b : A | a = b} := exist _ a eq_refl.

Lemma pop_shorter {A} (l : list A) x r :
  pop l = Some (x, r) -> (List.length r < List.length l)%nat.
Proof.
  revert x r; induction l as [|a l IH]; intros x r; simpl; [discriminate|].
  destruct (pop l) as [[y r']|] eqn:E; intros H; inversion H; subst; simpl.
  - specialize (IH _ _ eq_refl). lia.
  - lia.
Qed.

(** [doAllSyncs(bidders)] on the elements of the array [bidders]; the
    continuation it hands out is itself, bound to the same array. *)
Equations? doAllSyncs (bidders : list jsval) : run
  by wf (List.length bidders) lt :=
doAllSyncs bidders with inspect (pop bidders) := {
  | exist _ None _ => {| acts := []; ending := Drained; remaining := bidders |}
  | exist _ (Some (thisSync, rest)) Hpop =>
      match getProp thisSync (s2j "no_cookie") with
      | Throw e => {| acts := []; ending := Threw e; remaining := rest |}
      | Ok no_cookie =>
          if truthy no_cookie then
            match doBidderSyncOf thisSync with
            | (t, Ok CalledNow) => after t (doAllSyncs rest)
            | (t, Ok OnImage) | (t, Ok OnIframe) =>
                {| acts := t; ending := Waiting; remaining := rest |}
            | (t, Ok Dropped) => {| acts := t; ending := Lost; remaining := rest |}
            | (t, Throw e) => {| acts := t; ending := Threw e; remaining := rest |}
            end
          else doAllSyncs rest
      end }.
Proof.
  all: eapply pop_shorter; eassumption.
Qed.

(** [doAllSyncs(bidders)] on any value: a value without elements to pop has
    no [pop] method unless it is an array. *)
Definition doAllSyncsOn (bidders : jsval) : run :=
  match getProp bidders (s2j "length") with
  | Throw e => {| acts := []; ending := Threw e; remaining := [] |}
  | Ok len =>
      if strictEqZero len then {| acts := []; ending := Drained; remaining := [] |}
      else
        match bidders with
        | VArr l => doAllSyncs l
        | _ => {| acts := []; ending := Threw TypeError; remaining := [] |}
        end
  end.

(** [n] completions of the pending image or frame, each resuming the
    dispatcher on what is left of the array. *)
Fixpoint resume (n : nat) (r : run) : run :=
  match n, ending r with
  | S n', Waiting => after (acts r) (resume n' (doAllSyncs (remaining r)))
  | _, _ => r
  end.

(* ================================================================== *)
(** ** The consent gate and the sync requestor *)
(* ================================================================== *)

Section Page.

Variable cfg : config.

(** The mutable cells of the script and of the objects it created. *)
Record page : Set := {
  consent : jsval;       (* let consent = {} *)
  syncRan : bool;        (* let syncRan = false *)
  timerArmed : bool;     (* the timer of line 255 is still pending *)
  awaiting : bool;       (* the request was sent and has not completed *)
  queue : list jsval;    (* the array the dispatcher continuation is bound to *)
  loading : nat          (* images and frames that have not completed *)
}.

Definition boot : page :=
  {| consent := VObj []; syncRan := false; timerArmed := true;
     awaiting := false; queue := []; loading := 0 |}.

Definition attachConsent (consent : jsval) (data : list (jstring * jsval))
  : result (list (jstring * jsval)) :=
  consentMetadata <- getProp consent (s2j "consentMetadata") ;;
  if truthy consentMetadata then
    gdprApplies <- getProp consentMetadata (s2j "gdprApplies") ;;
    if truthy gdprApplies then
      consentString <- getProp consent (s2j "consentString") ;;
      Ok (objSet (s2j "gdpr_consent")
                 (if truthy consentString then consentString else VStr [])
                 (objSet (s2j "gdpr") (VNum (Int 1)) data))
    else Ok (objSet (s2j "gdpr") (VNum (Int 0)) data)
  else Ok data.

(** The object [getStringifiedData] serializes: the endpoint arguments, or a
    new object, with [limit] and the consent fields set. *)
Definition payload (consent endPointArgs : jsval)
  : result (list (jstring * jsval)) :=
  attachConsent consent
    (objSet (s2j "limit") (VNum (MAX_SYNC_COUNT cfg))
            match endPointArgs with VObj fs => fs | _ => [] end).

(** An array keeps the properties set on it out of its serialization. *)
Definition getStringifiedData (consent endPointArgs : jsval) : result jstring :=
  data <- payload consent endPointArgs ;;
  Ok (JSON_stringify match endPointArgs with
                     | VArr l => VArr l
                     | _ => VObj data
                     end).

(** [ajax(url, process, data, {withCredentials: true})] with a non-empty
    [data]: one POST. *)
Definition ajax (url data : jstring) : M unit := emit (XhrSend url data).

Definition init (st : page) : page * M unit :=
  match getStringifiedData (consent st) (ENDPOINT_ARGS cfg) with
  | Ok data =>
      ({| consent := consent st; syncRan := true; timerArmed := timerArmed st;
          awaiting := true; queue := queue st; loading := loading st |},
       ajax (ENDPOINT cfg) data)
  | Throw e =>
      ({| consent := consent st; syncRan := true; timerArmed := timerArmed st;
          awaiting := awaiting st; queue := queue st; loading := loading st |},
       lift (Throw e))
  end.

(** [process(response)]: the run of the dispatcher, if it is called. *)
Definition process (response : jstring) : M (option run) :=
  result <~ lift (JSON_parse response) ;;
  status <~ lift (getProp result (s2j "status")) ;;
  if strictEqStr status (s2j "ok") || strictEqStr status (s2j "no_cookie") then
    bidder_status <~ lift (getProp result (s2j "bidder_status")) ;;
    if truthy bidder_status then ret (Some (doAllSyncsOn bidder_status))
    else ret None
  else ret None.

(** What reaches the page. *)
Inductive event : Set :=
| EMessage (data : jsval)              (* a message event and its data *)
| ETimeout                             (* the timer of line 255 fires *)
| EResponse (status : Z) (body : jstring) (* the request reaches readyState 4 *)
| ELoad.                               (* the pending image or frame completes *)

(** An exception that leaves a handler is reported, not rethrown. *)
Definition report {A : Set} (m : M A) : list action :=
  match m with
  | (t, Ok _) => t
  | (t, Throw e) => t ++ [Uncaught e]
  end.

Definition settle (st : page) (r : run) : page * list action :=
  ({| consent := consent st; syncRan := syncRan st; timerArmed := timerArmed st;
      awaiting := awaiting st; queue := remaining r;
      loading := match ending r with Waiting => S (loading st) | _ => loading st end |},
   acts r ++ match ending r with Threw e => [Uncaught e] | _ => [] end).

Definition disarm (st : page) : page :=
  {| consent := consent st; syncRan := syncRan st; timerArmed := false;
     awaiting := awaiting st; queue := queue st; loading := loading st |}.

(** The callback of [setTimeout]. *)
Definition onTimeout (st : page) : page * list action :=
  let st := disarm st in
  if negb (syncRan st) then
    let '(st', m) :=
      if negb (truthyNum (DEFAULT_GDPR_SCOPE cfg)) then init st else (st, ret tt) in
    (st', report (m ;;; emit (ConsoleLog
       (s2j "Message listener timed out. No consent data was returned."))))
  else (st, []).

(** The listener of [message]. *)
Definition onMessage (st : page) (data : jsval) : page * list action :=
  match getProp data (s2j "type") with
  | Throw e => (st, [Uncaught e])
  | Ok type =>
      if strictEqStr type (s2j "consent-data") then
        let st :=
          disarm {| consent := data; syncRan := syncRan st;
                    timerArmed := timerArmed st; awaiting := awaiting st;
                    queue := queue st; loading := loading st |} in
        if negb (syncRan st) then
          let '(st', m) := init st in (st', report m)
        else (st, [])
      else (st, [])
  end.

(** The statuses for which [onreadystatechange] calls [callbacks.success]. *)
Definition succeeded (status : Z) : bool :=
  ((200 <=? status) && (status <? 300)) || (status =? 304).

Definition answered (st : page) : page :=
  {| consent := consent st; syncRan := syncRan st; timerArmed := timerArmed st;
     awaiting := false; queue := queue st; loading := loading st |}.

(** [onreadystatechange] at readyState 4. *)
Definition onResponse (st : page) (status : Z) (body : jstring)
  : page * list action :=
  let st := answered st in
  if succeeded status then
    match process body with
    | (t, Ok (Some r)) => let '(st', t') := settle st r in (st', t ++ t')
    | (t, Ok None) => (st, t)
    | (t, Throw e) => (st, t ++ [Uncaught e])
    end
  else (st, [ConsoleLog (s2j "xhr error")]).

(** The continuation [doAllSyncs.bind(null, bidders)] as an event listener. *)
Definition onLoad (st : page) : page * list action :=
  settle {| consent := consent st; syncRan := syncRan st;
            timerArmed := timerArmed st; awaiting := awaiting st;
            queue := queue st; loading := pred (loading st) |}
         (doAllSyncs (queue st)).

(** The handler of an event, whether or not the browser could deliver it. *)
Definition handle (st : page) (ev : event) : page * list action :=
  match ev with
  | EMessage data => onMessage st data
  | ETimeout => onTimeout st
  | EResponse status body => onResponse st status body
  | ELoad => onLoad st
  end.

(** The browser delivers a timeout only while the timer is armed, a response
    only to a pending request, a completion only to a pending load. *)
Definition enabled (st : page) (ev : event) : bool :=
  match ev with
  | EMessage _ => true
  | ETimeout => timerArmed st
  | EResponse _ _ => awaiting st
  | ELoad => (0 <? loading st)%nat
  end.

Definition step (st : page) (ev : event) : page * list action :=
  if enabled st ev then handle st ev else (st, []).

(** A page load: the script runs, then the events arrive in order. *)
Fixpoint deliver (f : page -> event -> page * list action)
  (st : page) (evs : list event) : page * list action :=
  match evs with
  | [] => (st, [])
  | ev :: evs' =>
      let '(st1, t1) := f st ev in
      let '(st2, t2) := deliver f st1 evs' in
      (st2, t1 ++ t2)
  end.

Definition pageLoad (evs : list event) : list action :=
  PostMessage :: snd (deliver step boot evs).

End Page.

Definition isRequest (a : action) : bool :=
  match a with XhrSend _ _ => true | _ => false end.

Definition isTransport (a : action) : bool :=
  match a with ImageSrc _ | IframeInsert _ _ => true | _ => false end.

Definition isUncaught (a : action) : bool :=
  match a with Uncaught _ => true | _ => false end.

(** A literal written with apostrophes for its double quotes. *)
Definition q' (s : string) : jstring :=
  map (fun c => if (c =? 39)%N then 34%N else c) (s2j s).
Arguments q' s%_string.

(* ================================================================== *)
(** ** Vocabulary of the statements *)
(* ================================================================== *)

(** What [doAllSyncs] does with the popped element, [k] being the run on
    the elements before it. *)
Definition visit (thisSync : jsval) (rest : list jsval) (k : run) : run :=
  match getProp thisSync (s2j "no_cookie") with
  | Throw e => {| acts := []; ending := Threw e; remaining := rest |}
  | Ok no_cookie =>
      if truthy no_cookie then
        match doBidderSyncOf thisSync with
        | (t, Ok CalledNow) => after t k
        | (t, Ok OnImage) | (t, Ok OnIframe) =>
            {| acts := t; ending := Waiting; remaining := rest |}
        | (t, Ok Dropped) => {| acts := t; ending := Lost; remaining := rest |}
        | (t, Throw e) => {| acts := t; ending := Threw e; remaining := rest |}
        end
      else k
  end.

(** The dispatcher only logs and starts transports. *)
Definition dispatchOnly (a : action) : bool :=
  match a with
  | ConsoleLog _ | ImageSrc _ | IframeInsert _ _ => true
  | _ => false
  end.

(** The record of section 3 of the design: a name, the no-cookie flag, the
    type and the url of the sync, which may be absent. *)
Record bidderSync : Set := {
  bidder : jstring;
  no_cookie : bool;
  usersync_type : jstring;
  usersync_url : option jstring
}.

Definition urlValue (b : bidderSync) : jsval :=
  match usersync_url b with Some u => VStr u | None => VUndef end.

(** The element of [bidder_status] a record stands for. *)
Definition encode (b : bidderSync) : jsval :=
  VObj [ (s2j "bidder", VStr (bidder b));
         (s2j "no_cookie", VBool (no_cookie b));
         (s2j "usersync",
          VObj ((s2j "type", VStr (usersync_type b)) ::
                match usersync_url b with
                | Some u => [(s2j "url", VStr u)]
                | None => []
                end)) ].

(** The one call of [doBidderSync] for a record. *)
Definition dispatchOf (b : bidderSync) : M handoff :=
  doBidderSync (VStr (usersync_type b)) (urlValue b) (VStr (bidder b)).

Definition usersyncOf (b : bidderSync) : jsval :=
  VObj ((s2j "type", VStr (usersync_type b)) ::
        match usersync_url b with
        | Some u => [(s2j "url", VStr u)]
        | None => []
        end).

Definition bidderA : bidderSync :=
  {| bidder := s2j "a"; no_cookie := true; usersync_type := s2j "image";
     usersync_url := Some (s2j "https://x.test/sync") |}.

Definition bidderB : bidderSync :=
  {| bidder := s2j "b"; no_cookie := false; usersync_type := s2j "image";
     usersync_url := Some (s2j "https://y.test/sync") |}.

Definition requests (t : list action) : nat := List.length (filter isRequest t).

Definition fired (st : page) : nat := if syncRan st then 1%nat else 0%nat.

(** The constants of a page whose address has no parameters. *)
Definition defaultConfig : config :=
  {| ENDPOINT := s2j "https://prebid.adnxs.com/pbs/v1/cookie_sync";
     ENDPOINT_ARGS := VUndef;
     MAX_SYNC_COUNT := Int 10;
     TIMEOUT := Int 10000;
     DEFAULT_GDPR_SCOPE := Int 1 |}.

Definition consentData : jsval :=
  VObj [ (s2j "type", VStr (s2j "consent-data"));
         (s2j "consentMetadata", VObj [(s2j "gdprApplies", VBool true)]);
         (s2j "consentString", VStr (s2j "CPc")) ].

(** An event that is a message of type [consent-data]. *)
Definition isConsentMessage (ev : event) : bool :=
  match ev with
  | EMessage data =>
      match getProp data (s2j "type") with
      | Ok type => strictEqStr type (s2j "consent-data")
      | Throw _ => false
      end
  | _ => false
  end.

(** The own properties of the endpoint arguments, none when there are no
    arguments. *)
Definition argFields (endPointArgs : jsval) : list (jstring * jsval) :=
  match endPointArgs with VObj fs => fs | _ => [] end.

(** A message that is not of type [consent-data]. *)
Definition isOtherMessage (ev : event) : bool :=
  match ev with
  | EMessage _ => negb (isConsentMessage ev)
  | _ => false
  end.

Definition scopeZeroConfig : config :=
  {| ENDPOINT := s2j "https://prebid.adnxs.com/pbs/v1/cookie_sync";
     ENDPOINT_ARGS := VObj [(s2j "account", VNum (Int 7))];
     MAX_SYNC_COUNT := Int 10;
     TIMEOUT := Int 10000;
     DEFAULT_GDPR_SCOPE := Int 0 |}.

Definition withLimit (cfg : config) (m : number) : config :=
  {| ENDPOINT := ENDPOINT cfg; ENDPOINT_ARGS := ENDPOINT_ARGS cfg;
     MAX_SYNC_COUNT := m; TIMEOUT := TIMEOUT cfg;
     DEFAULT_GDPR_SCOPE := DEFAULT_GDPR_SCOPE cfg |}.

(** An action without the body of its request. *)
Definition blind (a : action) : action :=
  match a with XhrSend url _ => XhrSend url [] | _ => a end.

(** The response of section 8 of the design. *)
Definition exampleResponse : jstring :=
  q' "{'status':'ok','bidder_status':[{'bidder':'a','no_cookie':true,'usersync':{'type':'image','url':'https://x.test/sync'}},{'bidder':'b','no_cookie':false,'usersync':{'type':'image','url':'https://y.test/sync'}}]}".

Definition twoEligible : jstring :=
  q' "{'status':'ok','bidder_status':[{'bidder':'a','no_cookie':true,'usersync':{'type':'image','url':'https://x.test/sync'}},{'bidder':'b','no_cookie':true,'usersync':{'type':'redirect','url':'https://y.test/sync'}}]}".




(** The names of the parameters the script reads. *)
Definition parameterNames : list string :=
  ["endpoint"; "args"; "max_sync_count"; "timeout"; "defaultGdprScope"]%string.

(** What [sanitizeEndpointArgs] stores for the text of a value. *)
Definition argValue (v : jstring) : jsval :=
  if allDigits v then VNum (parseInt v) else VStr v.


(** A text without comma and colon. *)
Definition noSeparator (w : jstring) : bool :=
  forallb (fun c => negb ((c =? ch ",") || (c =? ch ":"))%N) w.

Definition isTimeout (ev : event) : bool :=
  match ev with ETimeout => true | _ => false end.

(** What a run of the dispatcher shows to the page: its actions and the
    exception that ended it, if one did. *)
Definition traceOf (r : run) : list action :=
  acts r ++ match ending r with Threw e => [Uncaught e] | _ => [] end.

(** The dispatcher works on one bidder at a time: at most one image or
    frame is loading, none while the request is pending or before it. *)
Definition sequential (st : page) : Prop :=
  (loading st <= 1)%nat /\
  (awaiting st = true -> loading st = 0%nat) /\
  (syncRan st = false -> loading st = 0%nat /\ awaiting st = false).

(** The loop of a repetition, as [matches] has it, over the matcher of the
    repeated pattern. *)
Definition repLoop (m : jstring -> (jstring -> bool) -> bool) (k : jstring -> bool)
  : nat -> nat -> jstring -> bool :=
  fix loop (fuel need : nat) (s : jstring) {struct fuel} : bool :=
    match need with
    | S need' =>
        match fuel with
        | S f => m s (fun s' => loop f need' s')
        | O => false
        end
    | O =>
        if match fuel with
           | S f =>
               m s (fun s' =>
                 if (List.length s' <? List.length s)%nat
                 then loop f O s' else false)
           | O => false
           end
        then true else k s
    end.

(** Every class of a pattern, outside its lookaheads, lies within [P]. *)
Fixpoint classesIn (P : N -> bool) (r : re) : Prop :=
  match r with
  | Cls p => forall c, p c = true -> P c = true
  | Seq a b | Alt a b => classesIn P a /\ classesIn P b
  | Rep _ _ a => classesIn P a
  | Eps | NotAhead _ | AtEnd => True
  end.

(** A pattern that matches only up to the end of the input. *)
Fixpoint closes (r : re) : bool :=
  match r with
  | AtEnd => true
  | Seq _ b => closes b
  | Alt a b => closes a && closes b
  | _ => false
  end.

(** Space, tab, line feed, vertical tab, form feed, carriage return. *)
Definition isAsciiSpace (c : N) : bool :=
  existsb (N.eqb c) [9; 10; 11; 12; 13; 32]%N.

(** The beginnings [isValidUrl] allows. *)
Definition schemes : list jstring :=
  [s2j "//"; s2j "http://"; s2j "https://"; s2j "ftp://"].

(** The events left when the messages that are not consent data are taken
    out, and the actions left when the uncaught exceptions are. *)
Definition consentOnly (evs : list event) : list event :=
  filter (fun ev => negb (isOtherMessage ev)) evs.

Definition handled (t : list action) : list action :=
  filter (fun a => negb (isUncaught a)) t.

(* ================================================================== *)
(** ** Tactics *)
(* ================================================================== *)

Ltac break_any :=
  match goal with
  | H : context [if ?c then _ else _] |- _ => destruct c eqn:?
  | H : context [match ?x with _ => _ end] |- _ => is_var x; destruct x
  | H : context [match ?x with _ => _ end] |- _ => destruct x eqn:?
  end.

Ltac invert_results :=
  repeat match goal with
         | E : (_, _) = (_, _) |- _ => inversion E; clear E
         | E : Some _ = Some _ |- _ => inversion E; clear E
         end.

(* ================================================================== *)
(** ** Decimal printing and parsing *)
(* ================================================================== *)

Lemma digitsPrefix_print (u : uint) :
  digitsPrefix (s2j (NilEmpty.string_of_uint u)) = u.
Proof. induction u; simpl; congruence. Qed.

Lemma print_no_space (u : uint) :
  trimStart (s2j (NilEmpty.string_of_uint u)) = s2j (NilEmpty.string_of_uint u).
Proof. destruct u; reflexivity. Qed.

Lemma to_uint_cases (p : positive) :
  Pos.to_uint p <> Nil /\ Z.of_uint (Pos.to_uint p) = Z.pos p.
Proof.
  pose proof (DecimalPos.Unsigned.of_to p) as H.
  unfold Z.of_uint. rewrite H. split; [|reflexivity].
  intros E. rewrite E in H. discriminate.
Qed.

Lemma parseInt_digits (u : uint) (neg : bool) :
  u <> Nil ->
  parseInt ((if neg then [ch "-"] else []) ++ s2j (NilEmpty.string_of_uint u))
  = Int (if neg then - Z.of_uint u else Z.of_uint u).
Proof.
  intros Hu. unfold parseInt.
  assert (Hd : forall t, t = s2j (NilEmpty.string_of_uint u) ->
             match digitsPrefix t with
             | Nil => NaN
             | w => Int (if neg then - Z.of_uint w else Z.of_uint w)
             end = Int (if neg then - Z.of_uint u else Z.of_uint u)).
  { intros t ->. rewrite digitsPrefix_print. destruct u; congruence. }
  destruct neg; simpl.
  - apply Hd; reflexivity.
  - rewrite print_no_space.
    destruct u; try congruence; simpl; apply (Hd _ eq_refl).
Qed.

Lemma nilzero_print (u : uint) :
  u <> Nil -> NilZero.string_of_uint u = NilEmpty.string_of_uint u.
Proof. intros H; destruct u; [congruence | reflexivity ..]. Qed.

(** Printing an integer and reading it back is the identity. *)
Lemma parseInt_printZ (z : Z) : parseInt (printZ z) = Int z.
Proof.
  unfold printZ. destruct z as [|p|p]; [reflexivity| |];
    destruct (to_uint_cases p) as [Hn Hz].
  - change (Z.to_int (Z.pos p)) with (Decimal.Pos (Pos.to_uint p)).
    unfold NilZero.string_of_int. rewrite (nilzero_print _ Hn).
    rewrite (parseInt_digits (Pos.to_uint p) false Hn : parseInt (s2j _) = _).
    now rewrite Hz.
  - change (Z.to_int (Z.neg p)) with (Decimal.Neg (Pos.to_uint p)).
    unfold NilZero.string_of_int. rewrite (nilzero_print _ Hn).
    rewrite (parseInt_digits (Pos.to_uint p) true Hn : parseInt (s2j (String "-" _)) = _).
    now rewrite Hz.
Qed.

Lemma parseInt_shape (s : jstring) :
  parseInt s = NaN \/ exists k, parseInt s = Int k.
Proof.
  unfold parseInt.
  destruct (match trimStart s with
            | [] => (false, trimStart s)
            | c :: r => if (c =? ch "-")%N then (true, r)
                        else if (c =? ch "+")%N then (false, r)
                        else (false, trimStart s)
            end) as [neg body].
  destruct (digitsPrefix body); eauto.
Qed.

(* ================================================================== *)
(** ** The sanitizers *)
(* ================================================================== *)


Lemma strictEqNum_refl (m e : Z) : strictEqNum (Fin m e) (Fin m e) = true.
Proof. simpl. apply Z.eqb_refl. Qed.

Lemma parseIntNum_Int (z : Z) : Z.abs z < 10 ^ 21 -> parseIntNum (Int z) = Int z.
Proof.
  intros Hz. unfold parseIntNum, Int, numberToString, asInteger.
  change (0 <=? 0) with true. cbv iota.
  replace (z * 10 ^ 0) with z by (rewrite Z.pow_0_r; lia).
  apply Z.ltb_lt in Hz. rewrite Hz. apply parseInt_printZ.
Qed.

Lemma strictEqNum_fraction (m e k : Z) :
  asInteger m e = None -> strictEqNum (Fin m e) (Int k) = false.
Proof.
  unfold asInteger, Int, strictEqNum.
  destruct (0 <=? e) eqn:He; [discriminate|].
  destruct (m mod 10 ^ (- e) =? 0) eqn:Hm; [discriminate|]. intros _.
  apply Z.leb_gt in He. apply Z.eqb_neq in Hm. apply Z.eqb_neq. intros E.
  rewrite Z.min_l in E by lia.
  replace (e - e) with 0 in E by lia. replace (0 - e) with (- e) in E by lia.
  apply Hm. rewrite Z.pow_0_r, Z.mul_1_r in E. subst m.
  apply Z_mod_mult.
Qed.




(** C5, as the script has it. The timeout sanitizer keeps a value only if it
    is an integer, and keeps every integer below 10^21 in magnitude, the
    negative ones included; NaN, the infinities and every other number give
    10000. *)
Theorem sanitizeTimeout_spec :
  (forall z, Z.abs z < 10 ^ 21 -> sanitizeTimeout (Int z) = Int z) /\
  (forall v, sanitizeTimeout v = v \/ sanitizeTimeout v = Int 10000) /\
  (forall v, isNaN v = true \/ (exists b, v = Inf b) \/
             (exists m e, v = Fin m e /\ asInteger m e = None) ->
     sanitizeTimeout v = Int 10000).
Proof.
  repeat split.
  - intros z Hz. unfold sanitizeTimeout. rewrite (parseIntNum_Int z Hz).
    simpl. now rewrite Z.eqb_refl.
  - intros v. unfold sanitizeTimeout.
    destruct (negb (isNaN v) && strictEqNum v (parseIntNum v)); auto.
  - intros v [H | [[b ->] | (m & e & -> & H)]].
    + unfold sanitizeTimeout. now rewrite H.
    + destruct b; reflexivity.
    + unfold sanitizeTimeout, parseIntNum.
      destruct (parseInt_shape (numberToString (Fin m e))) as [-> | [k ->]].
      * reflexivity.
      * now rewrite (strictEqNum_fraction m e k H).
Qed.

Lemma sanitizeTimeout_spec_witness :
  sanitizeTimeout (Int 2500) = Int 2500 /\
  sanitizeTimeout (Int (-5)) = Int (-5) /\
  sanitizeTimeout NaN = Int 10000 /\
  sanitizeTimeout (Fin 15 (-1)) = Int 10000.
Proof.
  destruct sanitizeTimeout_spec as (H1 & _ & H3).
  split; [apply H1; reflexivity|].
  split; [apply H1; reflexivity|].
  split; [apply H3; left; reflexivity|].
  apply H3; right; right. exists 15, (-1). split; reflexivity.
Defined.

(** C5 fails on a negative integer: it is returned, not replaced. *)
Lemma sanitizeTimeout_negative_counterexample :
  sanitizeTimeout (Int (-5)) = Int (-5) /\
  sanitizeTimeout (Int (-5)) <> Int 10000 /\
  exists cfg, loadConfig (s2j "?timeout=-5") = Ok cfg /\ TIMEOUT cfg = Int (-5).
Proof.
  split; [reflexivity|]. split; [discriminate|].
  eexists; split; reflexivity.
Qed.

(** The other sanitizers on the inputs the design names. *)
Lemma sanitizeScope_range (v : number) :
  sanitizeScope v = v /\ (strictEqNum v (Int 0) || strictEqNum v (Int 1) = true) \/
  sanitizeScope v = Int 1.
Proof.
  unfold sanitizeScope.
  destruct (strictEqNum v (Int 0) || strictEqNum v (Int 1)); auto.
Qed.

Lemma sanitizeEndpointArgs_example :
  sanitizeEndpointArgs (s2j "a:1,b:,:c,d:2")
  = VObj [(s2j "a", VNum (Int 1)); (s2j "d", VNum (Int 2))].
Proof. reflexivity. Qed.

Lemma sanitizeEndpointArgs_shape (value : jstring) :
  sanitizeEndpointArgs value = VUndef \/
  exists fs, sanitizeEndpointArgs value = VObj fs.
Proof.
  unfold sanitizeEndpointArgs. destruct value; [auto|].
  destruct (fold_left addArg _ _); eauto.
Qed.

(** The endpoint arguments of a loaded page are never an array. *)
Lemma loadConfig_args (search : jstring) (cfg : config) :
  loadConfig search = Ok cfg -> forall l, ENDPOINT_ARGS cfg <> VArr l.
Proof.
  unfold loadConfig, bind. intros H l.
  repeat (break_any; try discriminate). inversion H; subst. simpl.
  match goal with |- sanitizeEndpointArgs ?v <> _ =>
    destruct (sanitizeEndpointArgs_shape v) as [-> | [fs ->]] end; discriminate.
Qed.

(* ================================================================== *)
(** ** The dispatcher *)
(* ================================================================== *)

Lemma pop_snoc {A} (l : list A) (x : A) : pop (l ++ [x]) = Some (x, l).
Proof. induction l as [|a l IH]; simpl; [reflexivity | now rewrite IH]. Qed.

Lemma doAllSyncs_nil :
  doAllSyncs [] = {| acts := []; ending := Drained; remaining := [] |}.
Proof. reflexivity. Qed.

Lemma doAllSyncs_snoc (l : list jsval) (x : jsval) :
  doAllSyncs (l ++ [x]) = visit x l (doAllSyncs l).
Proof.
  simp doAllSyncs.
  generalize (inspect (pop (l ++ [x]))). intros [[[y r]|] E];
    pose proof E as E'; rewrite pop_snoc in E'; inversion E'; subst.
  simp doAllSyncs. reflexivity.
Qed.

Ltac unfold_M :=
  unfold bindM, lift, emit, ret, triggerPixel, triggerIframeLoad, bind in *.

Lemma bindM_all {A B : Set} (P : action -> bool) (m : M A) (k : A -> M B) :
  forallb P (fst m) = true ->
  (forall a, forallb P (fst (k a)) = true) ->
  forallb P (fst (bindM m k)) = true.
Proof.
  intros Hm Hk. destruct m as [t [a|e]]; simpl in *; [|assumption].
  specialize (Hk a). destruct (k a) as [t' r]. simpl in *.
  now rewrite forallb_app, Hm, Hk.
Qed.

Ltac all_acts :=
  repeat first
    [ reflexivity
    | apply bindM_all; [| intros ?]
    | match goal with
      | |- context [if ?b then _ else _] => destruct b
      end ].

Lemma doBidderSync_dispatchOnly (type url bidder : jsval) :
  forallb dispatchOnly (fst (doBidderSync type url bidder)) = true.
Proof. unfold doBidderSync, triggerPixel, triggerIframeLoad. all_acts. Qed.

Lemma doBidderSyncOf_dispatchOnly (thisSync : jsval) :
  forallb dispatchOnly (fst (doBidderSyncOf thisSync)) = true.
Proof.
  unfold doBidderSyncOf.
  do 4 (apply bindM_all; [reflexivity | intros ?]).
  apply doBidderSync_dispatchOnly.
Qed.

Lemma doAllSyncs_dispatchOnly (l : list jsval) :
  forallb dispatchOnly (acts (doAllSyncs l)) = true.
Proof.
  induction l as [|x l IH] using rev_ind; [reflexivity|].
  rewrite doAllSyncs_snoc. unfold visit.
  destruct (getProp x (s2j "no_cookie")); [|reflexivity].
  destruct (truthy a); [|assumption].
  pose proof (doBidderSyncOf_dispatchOnly x) as H.
  destruct (doBidderSyncOf x) as [t [[]|e]]; simpl in *; try assumption.
  rewrite forallb_app, H, IH. reflexivity.
Qed.

Ltac case_atoms :=
  repeat (match goal with
          | |- context [truthy ?x] => destruct (truthy x) eqn:?
          | |- context [toStringVal ?x] => destruct (toStringVal x) eqn:?
          | |- context [test ?x] => destruct (test x) eqn:?
          | |- context [strictEqStr ?a ?b] => destruct (strictEqStr a b) eqn:?
          | |- context [looseEqStr ?a ?b] => destruct (looseEqStr a b) as [[|]|] eqn:?
          end; simpl).

(** C9. [triggerIframeLoad] returns early, and drops [done], exactly on a
    falsy url; [doBidderSync] never reaches that branch: it never drops
    [done], it hands [done] to a frame only for a truthy url, and no run of
    the dispatcher ends with its continuation lost. *)
Theorem triggerIframeLoad_guarded :
  (forall url bidder, truthy url = false ->
     triggerIframeLoad url bidder = ([], Ok Dropped)) /\
  (forall type url bidder,
     snd (doBidderSync type url bidder) <> Ok Dropped) /\
  (forall type url bidder,
     snd (doBidderSync type url bidder) = Ok OnIframe -> truthy url = true) /\
  (forall bidders, ending (doAllSyncs bidders) <> Lost).
Proof.
  assert (Hnever : forall type url bidder,
             snd (doBidderSync type url bidder) <> Ok Dropped).
  { intros type url bidder. unfold doBidderSync. unfold_M.
    case_atoms; discriminate. }
  repeat split.
  - intros url bidder H. unfold triggerIframeLoad. now rewrite H.
  - exact Hnever.
  - intros type url bidder. unfold doBidderSync. unfold_M.
    case_atoms; try discriminate; reflexivity.
  - intros bidders.
    induction bidders as [|x l IH] using rev_ind; [discriminate|].
    rewrite doAllSyncs_snoc. unfold visit.
    destruct (getProp x (s2j "no_cookie")); [|discriminate].
    destruct (truthy a); [|assumption].
    unfold doBidderSyncOf. unfold bindM at 1 2 3 4. unfold lift.
    repeat (match goal with
            | |- context [match getProp ?a ?b with _ => _ end] =>
                destruct (getProp a b)
            end; simpl; try discriminate).
    match goal with
    | |- context [doBidderSync ?a ?b ?c] =>
        pose proof (Hnever a b c) as H; destruct (doBidderSync a b c) as [t [[]|e]]
    end; simpl in *; try discriminate; try assumption.
    now elim H.
Qed.

Lemma triggerIframeLoad_guarded_witness :
  triggerIframeLoad (VStr []) (VStr (s2j "a")) = ([], Ok Dropped) /\
  truthy (VStr (s2j "https://x.test/frame")) = true.
Proof.
  destruct triggerIframeLoad_guarded as (H1 & _ & H3 & _).
  split; [apply H1; reflexivity|].
  apply (H3 (VStr (s2j "iframe")) _ (VStr (s2j "a"))). reflexivity.
Defined.



(** The validator on the private and loopback ranges it names. *)
Lemma isValidUrl_private :
  map (fun w => test (s2j w))
      ["http://192.168.1.1/sync"; "http://10.0.0.1/sync"; "http://127.0.0.1/";
       "https://172.16.0.1/a"; "https://172.31.255.9/a"; "http://169.254.1.1/";
       "http://user@192.168.0.7:8080/x"]%string
  = [false; false; false; false; false; false; false].
Proof. reflexivity. Qed.

Lemma bindM_lift_Ok {A B : Set} (a : A) (k : A -> M B) :
  bindM (lift (Ok a)) k = k a.
Proof. unfold bindM, lift. destruct (k a). reflexivity. Qed.

Lemma encode_props (b : bidderSync) :
  getProp (encode b) (s2j "no_cookie") = Ok (VBool (no_cookie b)) /\
  getProp (encode b) (s2j "usersync") = Ok (usersyncOf b) /\
  getProp (encode b) (s2j "bidder") = Ok (VStr (bidder b)) /\
  getProp (usersyncOf b) (s2j "type") = Ok (VStr (usersync_type b)) /\
  getProp (usersyncOf b) (s2j "url") = Ok (urlValue b).
Proof. destruct b as [name nc ty [u|]]; repeat split; reflexivity. Qed.

Lemma doBidderSyncOf_encode (b : bidderSync) :
  doBidderSyncOf (encode b) = dispatchOf b.
Proof.
  destruct (encode_props b) as (_ & H1 & H2 & H3 & H4).
  unfold doBidderSyncOf, dispatchOf.
  rewrite H1, bindM_lift_Ok, H3, bindM_lift_Ok, H4, bindM_lift_Ok, H2.
  apply bindM_lift_Ok.
Qed.

Lemma looseEqStr_prints (v : jsval) (t lit : jstring) :
  toStringVal v = Ok t -> exists bl, looseEqStr v lit = Ok bl.
Proof.
  intros H. destruct v; unfold looseEqStr; try rewrite H; simpl; eauto.
Qed.

Lemma doBidderSync_returns (type url bidder : jsval) (t u b : jstring) :
  toStringVal type = Ok t -> toStringVal url = Ok u -> toStringVal bidder = Ok b ->
  exists tr h, doBidderSync type url bidder = (tr, Ok h) /\ h <> Dropped.
Proof.
  intros Ht Hu Hb.
  destruct (looseEqStr_prints type t (s2j "iframe") Ht) as [bl Hl].
  unfold doBidderSync. unfold_M. rewrite Hu, Hb, Ht, Hl.
  destruct (truthy url) eqn:Tu; simpl.
  - destruct (test u); simpl.
    + match goal with |- context [orb ?x ?y] => destruct (orb x y) end;
        simpl; [|destruct bl; simpl; rewrite ?Tu; simpl];
        eexists; eexists; (split; [reflexivity | discriminate]).
    + eexists; eexists; (split; [reflexivity | discriminate]).
  - eexists; eexists; (split; [reflexivity | discriminate]).
Qed.

Lemma dispatchOf_returns (b : bidderSync) :
  exists t h, dispatchOf b = (t, Ok h) /\ h <> Dropped.
Proof.
  destruct b as [name nc ty [u|]]; unfold dispatchOf, urlValue; simpl;
    eapply doBidderSync_returns; reflexivity.
Qed.

Lemma after_assoc (t1 t2 : list action) (r : run) :
  after t1 (after t2 r) = after (t1 ++ t2) r.
Proof. unfold after; simpl. now rewrite app_assoc. Qed.

Lemma resume_after (n : nat) (t : list action) (r : run) :
  resume n (after t r) = after t (resume n r).
Proof.
  destruct n as [|n]; [reflexivity|]. simpl.
  destruct (ending r); try reflexivity.
  now rewrite after_assoc.
Qed.

(** C6. For every list of bidder records, with every started image or frame
    completing, the dispatcher visits the bidders from the last to the
    first, makes the one call of [doBidderSync] for each bidder whose
    [no_cookie] is true and nothing for the others, and stops with the array
    empty. *)
Theorem doAllSyncs_reverse_once (bs : list bidderSync) (n : nat) :
  (List.length bs <= n)%nat ->
  resume n (doAllSyncs (map encode bs)) =
  {| acts := flat_map (fun b => fst (dispatchOf b)) (filter no_cookie (List.rev bs));
     ending := Drained;
     remaining := [] |}.
Proof.
  revert n. induction bs as [|x l IH] using rev_ind; intros n Hn.
  - destruct n; reflexivity.
  - rewrite map_app, length_app in *. simpl in *.
    rewrite doAllSyncs_snoc, rev_app_distr. simpl. unfold visit.
    destruct (encode_props x) as (-> & _).
    simpl. destruct (no_cookie x) eqn:Hnc.
    + rewrite doBidderSyncOf_encode. simpl.
      destruct (dispatchOf_returns x) as (t & h & E & Hh). rewrite E. simpl.
      destruct h; try congruence.
      * rewrite resume_after, IH by lia. reflexivity.
      * destruct n as [|n]; [lia|]. simpl. rewrite IH by lia. reflexivity.
      * destruct n as [|n]; [lia|]. simpl. rewrite IH by lia. reflexivity.
    + apply IH. lia.
Qed.

Lemma doAllSyncs_reverse_once_witness :
  (List.length [bidderA; bidderB] <= 2)%nat /\
  filter isTransport (acts (resume 2 (doAllSyncs (map encode [bidderA; bidderB]))))
  = [ImageSrc (s2j "https://x.test/sync")] /\
  ending (resume 2 (doAllSyncs (map encode [bidderA; bidderB]))) = Drained.
Proof.
  assert (H : (List.length [bidderA; bidderB] <= 2)%nat) by (simpl; lia).
  split; [exact H|].
  rewrite (doAllSyncs_reverse_once [bidderA; bidderB] 2 H).
  split; reflexivity.
Defined.

(** The records are what [JSON.parse] makes of the response, and the page
    that receives it loads one pixel, for bidder [a]. *)
Lemma exampleResponse_dispatch :
  JSON_parse exampleResponse
  = Ok (VObj [(s2j "status", VStr (s2j "ok"));
              (s2j "bidder_status", VArr (map encode [bidderA; bidderB]))]) /\
  pageLoad defaultConfig [EMessage consentData; EResponse 200 exampleResponse; ELoad]
  = [PostMessage;
     XhrSend (s2j "https://prebid.adnxs.com/pbs/v1/cookie_sync")
             (q' "{'limit':10,'gdpr':1,'gdpr_consent':'CPc'}");
     ConsoleLog (q' "Invoking image pixel user sync for bidder: 'a'");
     ImageSrc (s2j "https://x.test/sync")].
Proof. split; reflexivity. Qed.

(* ================================================================== *)
(** ** The consent gate *)
(* ================================================================== *)

Lemma requests_app (t u : list action) :
  requests (t ++ u) = (requests t + requests u)%nat.
Proof. unfold requests. now rewrite filter_app, length_app. Qed.

Lemma dispatchOnly_quiet (t : list action) :
  forallb dispatchOnly t = true ->
  filter isRequest t = [] /\ filter isUncaught t = [].
Proof.
  induction t as [|a t IH]; simpl; [auto|].
  intros H. apply andb_true_iff in H as [Ha Ht].
  destruct (IH Ht) as [-> ->]. destruct a; try discriminate; auto.
Qed.

Lemma doAllSyncsOn_dispatchOnly (v : jsval) :
  forallb dispatchOnly (acts (doAllSyncsOn v)) = true.
Proof.
  unfold doAllSyncsOn. destruct (getProp v (s2j "length")); [|reflexivity].
  destruct (strictEqZero a); [reflexivity|].
  destruct v; try reflexivity. apply doAllSyncs_dispatchOnly.
Qed.

(** [process] itself acts only through the dispatcher. *)
Lemma process_shape (body : jstring) :
  fst (process body) = [] /\
  forall r, snd (process body) = Ok (Some r) -> forallb dispatchOnly (acts r) = true.
Proof.
  unfold process. unfold_M.
  repeat (match goal with
          | |- context [match JSON_parse ?b with _ => _ end] => destruct (JSON_parse b)
          | |- context [match getProp ?a ?b with _ => _ end] => destruct (getProp a b)
          | |- context [if ?c then _ else _] => destruct c
          end; simpl);
    (split; [reflexivity|]); intros r H; inversion H; subst; try reflexivity.
  apply doAllSyncsOn_dispatchOnly.
Qed.

Lemma settle_requests (st : page) (r : run) :
  forallb dispatchOnly (acts r) = true ->
  syncRan (fst (settle st r)) = syncRan st /\ requests (snd (settle st r)) = 0%nat.
Proof.
  intros H. unfold settle; simpl. split; [reflexivity|].
  rewrite requests_app. unfold requests at 1.
  destruct (dispatchOnly_quiet _ H) as [-> _]. destruct (ending r); reflexivity.
Qed.

Section Gate.

Variable cfg : config.

Lemma init_fires (st : page) :
  syncRan (fst (init cfg st)) = true /\
  (requests (report (snd (init cfg st))) <= 1)%nat /\
  forall a, (requests (report (snd (init cfg st) ;;; emit (ConsoleLog a))) <= 1)%nat.
Proof.
  unfold init. destruct (getStringifiedData cfg (consent st) (ENDPOINT_ARGS cfg));
    simpl; repeat split; auto.
Qed.

(** A handler sends a request only by moving [syncRan] from false to true. *)
Lemma handle_fired (st : page) (ev : event) :
  (requests (snd (handle cfg st ev)) + fired st <= fired (fst (handle cfg st ev)))%nat.
Proof.
  destruct ev as [data| |status body|]; cbn [handle].
  - unfold onMessage. destruct (getProp data (s2j "type")) as [ty|e]; simpl; [|lia].
    destruct (strictEqStr ty (s2j "consent-data")); simpl; [|lia].
    destruct (syncRan st) eqn:R; simpl; unfold fired; simpl; rewrite ?R; simpl; [lia|].
    match goal with |- context [init cfg ?s] =>
      destruct (init_fires s) as (H1 & H2 & _); destruct (init cfg s) as [st' m] end.
    simpl in *. rewrite H1. lia.
  - unfold onTimeout. simpl.
    destruct (syncRan st) eqn:R; simpl; unfold fired; simpl; rewrite ?R; simpl; [lia|].
    destruct (truthyNum (DEFAULT_GDPR_SCOPE cfg)); simpl; rewrite ?R; simpl; [lia|].
    match goal with |- context [init cfg ?s] =>
      destruct (init_fires s) as (H1 & _ & H3); destruct (init cfg s) as [st' m] end.
    simpl in *. rewrite H1.
    specialize (H3 (s2j "Message listener timed out. No consent data was returned.")).
    lia.
  - unfold onResponse.
    destruct (succeeded status); [|unfold fired; simpl; lia].
    destruct (process_shape body) as [Ht Hr].
    destruct (process body) as [t [[r|]|e]]; cbn [fst snd] in Ht, Hr; subst t.
    + match goal with |- context [settle ?s r] =>
        destruct (settle_requests s r (Hr r eq_refl)) as [H1 H2];
        destruct (settle s r) as [st' t'] end.
      cbn [fst snd] in *. unfold fired. rewrite H1, app_nil_l, H2. simpl. lia.
    + unfold fired; simpl; lia.
    + unfold fired; simpl; lia.
  - unfold onLoad.
    match goal with |- context [settle ?s ?r] =>
      destruct (settle_requests s r (doAllSyncs_dispatchOnly _)) as [H1 H2] end.
    unfold fired. rewrite H1, H2. simpl. lia.
Qed.

Lemma step_fired (st : page) (ev : event) :
  (requests (snd (step cfg st ev)) + fired st <= fired (fst (step cfg st ev)))%nat.
Proof.
  unfold step. destruct (enabled st ev); [apply handle_fired | simpl; lia].
Qed.

Lemma deliver_fired (f : page -> event -> page * list action) :
  (forall st ev, (requests (snd (f st ev)) + fired st <= fired (fst (f st ev)))%nat) ->
  forall evs st,
    (requests (snd (deliver f st evs)) + fired st <= fired (fst (deliver f st evs)))%nat.
Proof.
  intros Hf evs. induction evs as [|ev evs IH]; intros st; simpl; [lia|].
  specialize (Hf st ev). destruct (f st ev) as [st1 t1].
  specialize (IH st1). destruct (deliver f st1 evs) as [st2 t2].
  simpl in *. rewrite requests_app. lia.
Qed.

End Gate.

(** C1. [syncRan] starts false, [init] sets it, a handler that finds it set
    sends no request, and so on every sequence of events, whether delivered
    as a browser does or by running the handlers in any order any number of
    times, a page load sends at most one request. *)
Theorem init_at_most_once (cfg : config) (evs : list event) :
  syncRan boot = false /\
  (forall st, syncRan (fst (init cfg st)) = true) /\
  (forall st ev, syncRan st = true ->
     filter isRequest (snd (handle cfg st ev)) = [] /\
     syncRan (fst (handle cfg st ev)) = true) /\
  (List.length (filter isRequest (snd (deliver (handle cfg) boot evs))) <= 1)%nat /\
  (List.length (filter isRequest (pageLoad cfg evs)) <= 1)%nat.
Proof.
  split; [reflexivity|]. split; [intros st; apply init_fires|]. split; [|split].
  - intros st ev R. pose proof (handle_fired cfg st ev) as H.
    unfold fired, requests in H. rewrite R in H.
    destruct (syncRan (fst (handle cfg st ev))); [|lia].
    split; [|reflexivity].
    destruct (filter isRequest (snd (handle cfg st ev))); [reflexivity | simpl in H; lia].
  - pose proof (deliver_fired (handle cfg) (handle_fired cfg) evs boot) as H.
    unfold fired, requests in *.
    destruct (syncRan (fst (deliver (handle cfg) boot evs))); simpl in H; lia.
  - pose proof (deliver_fired (step cfg) (step_fired cfg) evs boot) as H.
    unfold pageLoad, fired, requests in *. simpl.
    destruct (syncRan (fst (deliver (step cfg) boot evs))); simpl in H; lia.
Qed.

Lemma loadConfig_default : loadConfig [] = Ok defaultConfig.
Proof. reflexivity. Qed.

Lemma init_at_most_once_witness :
  syncRan (fst (handle defaultConfig boot (EMessage consentData))) = true /\
  filter isRequest
    (snd (handle defaultConfig
            (fst (handle defaultConfig boot (EMessage consentData)))
            (EMessage consentData))) = [].
Proof.
  split; [reflexivity|].
  apply (init_at_most_once defaultConfig []). reflexivity.
Defined.

Lemma consent_is_object (data : jsval) :
  isConsentMessage (EMessage data) = true -> exists fs, data = VObj fs.
Proof.
  unfold isConsentMessage, getProp.
  destruct data; try discriminate; eauto;
    match goal with |- context [jseqb ?a ?b] => destruct (jseqb a b) end;
    discriminate.
Qed.

Lemma getProp_truthy (v : jsval) (name : jstring) :
  truthy v = true -> exists x, getProp v name = Ok x.
Proof. destruct v; simpl; try discriminate; eauto. Qed.

Lemma attachConsent_object (fs : list (jstring * jsval)) :
  forall data, exists data', attachConsent (VObj fs) data = Ok data'.
Proof.
  intros data. unfold attachConsent, bind.
  change (getProp (VObj fs) (s2j "consentMetadata"))
    with (Ok match lookup (s2j "consentMetadata") fs with Some x => x | None => VUndef end).
  change (getProp (VObj fs) (s2j "consentString"))
    with (Ok match lookup (s2j "consentString") fs with Some x => x | None => VUndef end).
  cbv iota beta.
  destruct (truthy _) eqn:T; [|eauto].
  destruct (getProp_truthy _ (s2j "gdprApplies") T) as [g ->].
  destruct (truthy g); eauto.
Qed.

Section Unfired.

Variable cfg : config.

Lemma init_object (st : page) (fs : list (jstring * jsval)) :
  consent st = VObj fs ->
  exists body, snd (init cfg st) = emit (XhrSend (ENDPOINT cfg) body).
Proof.
  intros H. unfold init, getStringifiedData, payload, bind. rewrite H.
  destruct (attachConsent_object fs
              (objSet (s2j "limit") (VNum (MAX_SYNC_COUNT cfg))
                 match ENDPOINT_ARGS cfg with VObj a => a | _ => [] end)) as [d ->].
  eexists. reflexivity.
Qed.

Hypothesis scope_applies : truthyNum (DEFAULT_GDPR_SCOPE cfg) = true.

Lemma handle_unfired (st : page) (ev : event) :
  syncRan st = false -> isConsentMessage ev = false ->
  syncRan (fst (handle cfg st ev)) = false.
Proof.
  intros R C. destruct ev as [data| |status body|]; cbn [handle].
  - unfold onMessage. simpl in C.
    destruct (getProp data (s2j "type")); [|assumption].
    rewrite C. assumption.
  - unfold onTimeout. simpl. rewrite R, scope_applies. simpl. assumption.
  - unfold onResponse.
    destruct (succeeded status); [|assumption].
    destruct (process body) as [t [[r|]|e]]; assumption.
  - assumption.
Qed.

Lemma deliver_unfired (evs : list event) :
  forall st, syncRan st = false -> forallb (fun ev => negb (isConsentMessage ev)) evs = true ->
  syncRan (fst (deliver (handle cfg) st evs)) = false /\
  filter isRequest (snd (deliver (handle cfg) st evs)) = [].
Proof.
  induction evs as [|ev evs IH]; intros st R H; simpl in *; [auto|].
  apply andb_true_iff in H as [Hev Hevs]. apply negb_true_iff in Hev.
  pose proof (handle_unfired st ev R Hev) as R1.
  pose proof (handle_fired cfg st ev) as F. unfold fired, requests in F.
  rewrite R, R1 in F.
  destruct (handle cfg st ev) as [st1 t1]. simpl in *.
  destruct (IH st1 R1 Hevs) as [R2 Q].
  destruct (deliver (handle cfg) st1 evs) as [st2 t2]. simpl in *.
  split; [assumption|]. rewrite filter_app, Q.
  destruct (filter isRequest t1); [reflexivity | simpl in F; lia].
Qed.

End Unfired.

(** C2, as the script has it. With [defaultGdprScope] 1 the page sends no
    request while no consent-data message arrives, however the timer and the
    other events fall; a consent-data message that finds the page un-fired,
    also after the timer has elapsed, sends the one request. *)
Theorem unfired_until_consent (cfg : config) :
  truthyNum (DEFAULT_GDPR_SCOPE cfg) = true ->
  (forall evs, forallb (fun ev => negb (isConsentMessage ev)) evs = true ->
     syncRan (fst (deliver (handle cfg) boot evs)) = false /\
     filter isRequest (snd (deliver (handle cfg) boot evs)) = []) /\
  (forall st data, syncRan st = false -> isConsentMessage (EMessage data) = true ->
     exists body,
       snd (onMessage cfg st data) = [XhrSend (ENDPOINT cfg) body] /\
       syncRan (fst (onMessage cfg st data)) = true).
Proof.
  intros Hs. split.
  - intros evs H. now apply deliver_unfired.
  - intros st data R C. destruct (consent_is_object data C) as [fs ->].
    unfold onMessage, isConsentMessage in *. cbn [getProp] in *.
    rewrite C. simpl. rewrite R. simpl.
    match goal with |- context [init cfg ?s] =>
      destruct (init_object cfg s fs eq_refl) as [body Hb];
      pose proof (proj1 (init_fires cfg s)) as Hr;
      destruct (init cfg s) as [st' m] end.
    simpl in *. subst m. exists body. split; [reflexivity | assumption].
Qed.

Lemma unfired_until_consent_witness :
  filter isRequest (snd (deliver (handle defaultConfig) boot
                           [EMessage (VStr (s2j "hello")); ETimeout; ETimeout])) = [] /\
  exists body,
    snd (onMessage defaultConfig (disarm boot) consentData)
    = [XhrSend (ENDPOINT defaultConfig) body].
Proof.
  destruct (unfired_until_consent defaultConfig eq_refl) as [H1 H2].
  split.
  - apply (H1 [EMessage (VStr (s2j "hello")); ETimeout; ETimeout]). reflexivity.
  - destruct (H2 (disarm boot) consentData eq_refl eq_refl) as (body & Hb & _).
    exists body. exact Hb.
Defined.

(** C2 fails on a consent-data message that arrives after the timer has
    elapsed: the request is sent then. *)
Lemma late_consent_counterexample :
  DEFAULT_GDPR_SCOPE defaultConfig = Int 1 /\
  filter isRequest (pageLoad defaultConfig [ETimeout]) = [] /\
  filter isRequest (pageLoad defaultConfig [ETimeout; EMessage consentData])
  = [XhrSend (s2j "https://prebid.adnxs.com/pbs/v1/cookie_sync")
             (q' "{'limit':10,'gdpr':1,'gdpr_consent':'CPc'}")].
Proof. repeat split. Qed.

(* ================================================================== *)
(** ** The request payload *)
(* ================================================================== *)

Lemma jseqb_eq (s t : jstring) : jseqb s t = true <-> s = t.
Proof.
  revert t; induction s as [|a s IH]; intros [|b t]; simpl; split;
    try discriminate; try reflexivity.
  - intros H. apply andb_true_iff in H as [Hab Hst].
    apply N.eqb_eq in Hab. apply IH in Hst. congruence.
  - intros H. inversion H; subst. rewrite N.eqb_refl. now apply IH.
Qed.

Lemma jseqb_refl (s : jstring) : jseqb s s = true.
Proof. now apply jseqb_eq. Qed.

Lemma lookup_objSet (k k' : jstring) (v : jsval) (fs : list (jstring * jsval)) :
  lookup k (objSet k' v fs) = if jseqb k k' then Some v else lookup k fs.
Proof.
  induction fs as [|[k0 v0] fs IH]; simpl.
  - destruct (jseqb k k'); reflexivity.
  - destruct (jseqb k' k0) eqn:E1; simpl.
    + apply jseqb_eq in E1. subst k0. destruct (jseqb k k'); reflexivity.
    + destruct (jseqb k k0) eqn:E2; [|exact IH].
      apply jseqb_eq in E2. subst k0.
      destruct (jseqb k k') eqn:E3; [|reflexivity].
      apply jseqb_eq in E3. subst k'. rewrite jseqb_refl in E1. discriminate.
Qed.

Lemma other_messages_idle (cfg : config) (evs : list event) (st : page) :
  forallb isOtherMessage evs = true ->
  fst (deliver (step cfg) st evs) = st /\
  filter isRequest (snd (deliver (step cfg) st evs)) = [].
Proof.
  induction evs as [|ev evs IH]; simpl; [auto|]. intros H.
  apply andb_true_iff in H as [Hev Hevs]. specialize (IH Hevs).
  destruct ev as [data| | |]; try discriminate.
  change (step cfg st (EMessage data)) with (onMessage cfg st data).
  unfold onMessage. simpl in Hev. apply negb_true_iff in Hev.
  destruct (getProp data (s2j "type")) as [ty|e]; [rewrite Hev|];
    cbv iota beta; destruct (deliver (step cfg) st evs) as [st2 t2];
    simpl in *; tauto.
Qed.

(** C8, as the script has it. When the timer fires with no consent message
    received and [defaultGdprScope] 0, the one request carries the endpoint
    arguments with [limit] set to the sync count and nothing from the
    consent step: a [gdpr] or [gdpr_consent] field is there only if the
    endpoint arguments have one. *)
Theorem timeout_payload (cfg : config) (evs : list event) :
  truthyNum (DEFAULT_GDPR_SCOPE cfg) = false ->
  (forall l, ENDPOINT_ARGS cfg <> VArr l) ->
  forallb isOtherMessage evs = true ->
  let data := objSet (s2j "limit") (VNum (MAX_SYNC_COUNT cfg))
                     (argFields (ENDPOINT_ARGS cfg)) in
  filter isRequest (pageLoad cfg (evs ++ [ETimeout]))
  = [XhrSend (ENDPOINT cfg) (JSON_stringify (VObj data))] /\
  lookup (s2j "limit") data = Some (VNum (MAX_SYNC_COUNT cfg)) /\
  lookup (s2j "gdpr") data = lookup (s2j "gdpr") (argFields (ENDPOINT_ARGS cfg)) /\
  lookup (s2j "gdpr_consent") data
  = lookup (s2j "gdpr_consent") (argFields (ENDPOINT_ARGS cfg)) /\
  forall k, jseqb k (s2j "limit") = false ->
            lookup k data = lookup k (argFields (ENDPOINT_ARGS cfg)).
Proof.
  intros Hs Ha He data.
  assert (Hk : forall k, jseqb k (s2j "limit") = false ->
                         lookup k data = lookup k (argFields (ENDPOINT_ARGS cfg))).
  { intros k Hk. unfold data. now rewrite lookup_objSet, Hk. }
  split; [|split; [|split; [|split]]].
  - unfold pageLoad.
    assert (Hd : forall evs1 evs2 st,
               deliver (step cfg) st (evs1 ++ evs2)
               = (fst (deliver (step cfg) (fst (deliver (step cfg) st evs1)) evs2),
                  snd (deliver (step cfg) st evs1)
                  ++ snd (deliver (step cfg) (fst (deliver (step cfg) st evs1)) evs2))).
    { induction evs1 as [|e1 evs1 IH]; intros evs2 st; simpl.
      - now destruct (deliver (step cfg) st evs2).
      - destruct (step cfg st e1) as [st1 t1]. rewrite IH.
        destruct (deliver (step cfg) st1 evs1) as [st2 t2]. simpl.
        now rewrite app_assoc. }
    rewrite Hd. destruct (other_messages_idle cfg evs boot He) as [-> Hq].
    cbn [snd filter isRequest]. rewrite filter_app, Hq. cbn [app].
    unfold deliver, step. cbn [enabled boot timerArmed handle].
    unfold onTimeout. cbn [disarm syncRan boot negb]. rewrite Hs. cbn [negb].
    unfold init, getStringifiedData, payload. cbn [consent boot].
    unfold attachConsent at 1. cbn [getProp lookup bind truthy].
    fold (argFields (ENDPOINT_ARGS cfg)). fold data.
    destruct (ENDPOINT_ARGS cfg) eqn:E; try reflexivity.
    now elim (Ha l).
  - unfold data. now rewrite lookup_objSet, jseqb_refl.
  - apply Hk. reflexivity.
  - apply Hk. reflexivity.
  - exact Hk.
Qed.

Lemma loadConfig_scopeZero :
  loadConfig (s2j "?args=account:7&defaultGdprScope=0") = Ok scopeZeroConfig.
Proof. reflexivity. Qed.

Lemma timeout_payload_witness :
  filter isRequest
    (pageLoad scopeZeroConfig [EMessage (VStr (s2j "resize")); ETimeout])
  = [XhrSend (s2j "https://prebid.adnxs.com/pbs/v1/cookie_sync")
             (q' "{'account':7,'limit':10}")] /\
  lookup (s2j "gdpr")
    (objSet (s2j "limit") (VNum (Int 10)) [(s2j "account", VNum (Int 7))]) = None.
Proof.
  assert (Ha : forall l, ENDPOINT_ARGS scopeZeroConfig <> VArr l)
    by (intros l; discriminate).
  destruct (timeout_payload scopeZeroConfig [EMessage (VStr (s2j "resize"))]
              eq_refl Ha eq_refl) as (H1 & _ & H3 & _).
  split; [exact H1 | exact H3].
Defined.

(** C8 fails when the endpoint arguments of the page carry a [gdpr] key:
    the payload of the timeout path then has a [gdpr] field. *)
Lemma args_gdpr_counterexample :
  exists cfg,
    loadConfig (s2j "?args=gdpr:1&defaultGdprScope=0") = Ok cfg /\
    DEFAULT_GDPR_SCOPE cfg = Int 0 /\
    filter isRequest (pageLoad cfg [ETimeout])
    = [XhrSend (ENDPOINT cfg) (q' "{'gdpr':1,'limit':10}")] /\
    exists fs, JSON_parse (q' "{'gdpr':1,'limit':10}") = Ok (VObj fs) /\
               lookup (s2j "gdpr") fs = Some (VNum (Int 1)).
Proof.
  eexists. split; [reflexivity|]. split; [reflexivity|]. split; [reflexivity|].
  eexists. split; reflexivity.
Qed.

(* ================================================================== *)
(** ** The sync count and the dispatcher *)
(* ================================================================== *)

Lemma filter_blind (t : list action) :
  filter isTransport (map blind t) = filter isTransport t.
Proof.
  induction t as [|a t IH]; [reflexivity|].
  destruct a; simpl; rewrite IH; reflexivity.
Qed.

Lemma attachConsent_uniform (c : jsval) :
  (forall d, exists d', attachConsent c d = Ok d') \/
  (exists e, forall d, attachConsent c d = Throw e).
Proof.
  unfold attachConsent, bind.
  destruct (getProp c (s2j "consentMetadata")) as [cm|e]; [|right; eauto].
  destruct (truthy cm); [|left; eauto].
  destruct (getProp cm (s2j "gdprApplies")) as [g|e]; [|right; eauto].
  destruct (truthy g); [|left; eauto].
  destruct (getProp c (s2j "consentString")) as [cs|e]; [left|right]; eauto.
Qed.

Lemma init_limit (cfg : config) (m1 m2 : number) (st : page) :
  fst (init (withLimit cfg m1) st) = fst (init (withLimit cfg m2) st) /\
  map blind (report (snd (init (withLimit cfg m1) st)))
  = map blind (report (snd (init (withLimit cfg m2) st))) /\
  (forall (k : M unit),
     map blind (report (snd (init (withLimit cfg m1) st) ;;; k))
     = map blind (report (snd (init (withLimit cfg m2) st) ;;; k))).
Proof.
  unfold init, getStringifiedData, payload, bind. cbn [withLimit ENDPOINT_ARGS
    MAX_SYNC_COUNT ENDPOINT].
  destruct (attachConsent_uniform (consent st)) as [H | [e H]].
  - destruct (H (objSet (s2j "limit") (VNum m1) match ENDPOINT_ARGS cfg with
                                                 | VObj fs => fs | _ => [] end))
      as [d1 ->].
    destruct (H (objSet (s2j "limit") (VNum m2) match ENDPOINT_ARGS cfg with
                                                 | VObj fs => fs | _ => [] end))
      as [d2 ->].
    split; [reflexivity|]. split; [reflexivity|].
    intros k. unfold ajax, emit, bindM. cbn [snd].
    destruct k as [t [[]|e]]; reflexivity.
  - rewrite !H. repeat split; reflexivity.
Qed.

Lemma handle_limit (cfg : config) (m1 m2 : number) (st : page) (ev : event) :
  fst (handle (withLimit cfg m1) st ev) = fst (handle (withLimit cfg m2) st ev) /\
  map blind (snd (handle (withLimit cfg m1) st ev))
  = map blind (snd (handle (withLimit cfg m2) st ev)).
Proof.
  destruct ev as [data| |status body|]; cbn [handle]; try (split; reflexivity).
  - unfold onMessage. destruct (getProp data (s2j "type")) as [ty|e];
      [|split; reflexivity].
    destruct (strictEqStr ty (s2j "consent-data")); [|split; reflexivity].
    match goal with |- context [if ?c then _ else _] => destruct c end;
      [|split; reflexivity].
    match goal with |- context [init _ ?s] =>
      destruct (init_limit cfg m1 m2 s) as (H1 & H2 & _) end.
    do 2 match goal with |- context [init ?c ?s] =>
      destruct (init c s) as [? ?] end.
    cbn [fst snd] in *. split; assumption.
  - unfold onTimeout.
    match goal with |- context [if ?c then _ else _] => destruct c end;
      [|split; reflexivity].
    cbn [withLimit DEFAULT_GDPR_SCOPE].
    destruct (negb (truthyNum (DEFAULT_GDPR_SCOPE cfg))); [|split; reflexivity].
    match goal with |- context [init _ ?s] =>
      destruct (init_limit cfg m1 m2 s) as (H1 & _ & H3) end.
    do 2 match goal with |- context [init ?c ?s] =>
      destruct (init c s) as [? ?] end.
    cbn [fst snd] in *. split; [assumption | apply H3].
Qed.

Lemma step_limit (cfg : config) (m1 m2 : number) (st : page) (ev : event) :
  fst (step (withLimit cfg m1) st ev) = fst (step (withLimit cfg m2) st ev) /\
  map blind (snd (step (withLimit cfg m1) st ev))
  = map blind (snd (step (withLimit cfg m2) st ev)).
Proof.
  unfold step. destruct (enabled st ev); [apply handle_limit | split; reflexivity].
Qed.

Lemma pageLoad_limit (cfg : config) (m1 m2 : number) (evs : list event) :
  forall st,
    fst (deliver (step (withLimit cfg m1)) st evs)
    = fst (deliver (step (withLimit cfg m2)) st evs) /\
    map blind (snd (deliver (step (withLimit cfg m1)) st evs))
    = map blind (snd (deliver (step (withLimit cfg m2)) st evs)).
Proof.
  induction evs as [|ev evs IH]; intros st; simpl; [auto|].
  destruct (step_limit cfg m1 m2 st ev) as [H1 H2].
  destruct (step (withLimit cfg m1) st ev) as [s1 t1].
  destruct (step (withLimit cfg m2) st ev) as [s2 t2].
  cbn [fst snd] in *. subst s2. specialize (IH s1).
  destruct (deliver (step (withLimit cfg m1)) s1 evs) as [s3 t3].
  destruct (deliver (step (withLimit cfg m2)) s1 evs) as [s4 t4].
  cbn [fst snd] in *. rewrite !map_app. destruct IH as [-> ->].
  now rewrite H2.
Qed.

Lemma attachConsent_keeps_limit (c : jsval) (d d' : list (jstring * jsval)) :
  attachConsent c d = Ok d' -> lookup (s2j "limit") d' = lookup (s2j "limit") d.
Proof.
  unfold attachConsent, bind.
  destruct (getProp c (s2j "consentMetadata")) as [cm|e]; [|discriminate].
  destruct (truthy cm); [|congruence].
  destruct (getProp cm (s2j "gdprApplies")) as [g|e]; [|discriminate].
  destruct (truthy g).
  - destruct (getProp c (s2j "consentString")) as [cs|e]; [|discriminate].
    intros H; inversion H; subst. now rewrite !lookup_objSet.
  - intros H; inversion H; subst. now rewrite lookup_objSet.
Qed.

(** C10. Two page loads that differ only in the sync count see the same
    events do the same, start the same transports in the same order and
    differ at most in the body of the request, where the count is the
    [limit] field; a count of 0 stops no sync. *)
Theorem limit_not_enforced (cfg : config) (m1 m2 : number) (evs : list event) :
  filter isTransport (pageLoad (withLimit cfg m1) evs)
  = filter isTransport (pageLoad (withLimit cfg m2) evs) /\
  map blind (pageLoad (withLimit cfg m1) evs)
  = map blind (pageLoad (withLimit cfg m2) evs) /\
  (forall c a, match payload (withLimit cfg m1) c a with
               | Ok data => lookup (s2j "limit") data = Some (VNum m1)
               | Throw _ => True
               end) /\
  filter isTransport
    (pageLoad (withLimit defaultConfig (Int 0))
       [EMessage consentData; EResponse 200 twoEligible; ELoad; ELoad])
  = [ImageSrc (s2j "https://y.test/sync"); ImageSrc (s2j "https://x.test/sync")].
Proof.
  assert (H : map blind (pageLoad (withLimit cfg m1) evs)
              = map blind (pageLoad (withLimit cfg m2) evs)).
  { unfold pageLoad. simpl. f_equal. apply pageLoad_limit. }
  split; [|split; [exact H | split; [|reflexivity]]].
  - rewrite <- (filter_blind (pageLoad (withLimit cfg m1) evs)), H.
    apply filter_blind.
  - intros c a. destruct (payload (withLimit cfg m1) c a) as [data|e] eqn:E; [|exact I].
    unfold payload in E. apply attachConsent_keeps_limit in E. rewrite E.
    now rewrite lookup_objSet, jseqb_refl.
Qed.

(* ================================================================== *)
(** ** The response *)
(* ================================================================== *)

(** C3, as the script has it. A body that is not JSON starts no sync, and
    the SyntaxError of [JSON.parse] leaves the [onreadystatechange] handler
    uncaught, as does the TypeError of reading [status] from a parsed
    [null]; a parsed value with a readable status that is neither [ok] nor
    [no_cookie], or with no truthy [bidder_status], starts no sync and
    raises nothing; a failed request is logged. *)
Theorem response_failure_paths (st : page) (status : Z) (body : jstring) :
  (forall e, JSON_parse body = Throw e ->
     filter isTransport (snd (onResponse st status body)) = [] /\
     (succeeded status = true ->
      onResponse st status body = (answered st, [Uncaught e]))) /\
  (JSON_parse body = Ok VNull -> succeeded status = true ->
     onResponse st status body = (answered st, [Uncaught TypeError])) /\
  (forall v s, JSON_parse body = Ok v -> getProp v (s2j "status") = Ok s ->
     strictEqStr s (s2j "ok") || strictEqStr s (s2j "no_cookie") = false \/
     (exists b, getProp v (s2j "bidder_status") = Ok b /\ truthy b = false) ->
     filter isTransport (snd (onResponse st status body)) = [] /\
     filter isUncaught (snd (onResponse st status body)) = [] /\
     (succeeded status = true -> onResponse st status body = (answered st, []))) /\
  (succeeded status = false ->
     onResponse st status body = (answered st, [ConsoleLog (s2j "xhr error")])).
Proof.
  unfold onResponse, process. unfold_M.
  split; [|split; [|split]].
  - intros e He. rewrite He. destruct (succeeded status); simpl; auto.
    split; [reflexivity | discriminate].
  - intros Hv Hs. rewrite Hv, Hs. reflexivity.
  - intros v s Hv Hst H. rewrite Hv, Hst.
    destruct (succeeded status); simpl;
      [|repeat split; try reflexivity; discriminate].
    destruct H as [H | (b & Hb & Tb)].
    + rewrite H. simpl. auto.
    + rewrite Hb, Tb.
      destruct (strictEqStr s (s2j "ok") || strictEqStr s (s2j "no_cookie"));
        simpl; auto.
  - intros Hs. rewrite Hs. reflexivity.
Qed.

Lemma response_failure_paths_witness :
  onResponse boot 200 (s2j "<html>Bad Gateway</html>")
  = (answered boot, [Uncaught SyntaxError]) /\
  onResponse boot 200 (q' "{'status':'error','bidder_status':[]}")
  = (answered boot, []) /\
  onResponse boot 200 (q' "{'status':'ok'}") = (answered boot, []) /\
  onResponse boot 503 (s2j "unavailable")
  = (answered boot, [ConsoleLog (s2j "xhr error")]).
Proof.
  split; [|split; [|split]].
  - apply (response_failure_paths boot 200 (s2j "<html>Bad Gateway</html>"));
      reflexivity.
  - apply (proj1 (proj2 (proj2
             (response_failure_paths boot 200
                (q' "{'status':'error','bidder_status':[]}"))))
             _ (VStr (s2j "error")) eq_refl eq_refl);
      [left; reflexivity | reflexivity].
  - apply (proj1 (proj2 (proj2
             (response_failure_paths boot 200 (q' "{'status':'ok'}"))))
             _ (VStr (s2j "ok")) eq_refl eq_refl);
      [right; exists VUndef; split; reflexivity | reflexivity].
  - apply (response_failure_paths boot 503 (s2j "unavailable")). reflexivity.
Defined.

(** C3 fails on a body that is not JSON: the exception of [JSON.parse]
    leaves the handler. *)
Lemma malformed_body_counterexample :
  JSON_parse (s2j "<html>Bad Gateway</html>") = Throw SyntaxError /\
  pageLoad defaultConfig
    [EMessage consentData; EResponse 200 (s2j "<html>Bad Gateway</html>")]
  = [PostMessage;
     XhrSend (s2j "https://prebid.adnxs.com/pbs/v1/cookie_sync")
             (q' "{'limit':10,'gdpr':1,'gdpr_consent':'CPc'}");
     Uncaught SyntaxError].
Proof. split; reflexivity. Qed.

(* ================================================================== *)
(** ** The fuel of the JSON parser *)
(* ================================================================== *)

Ltac break_hyp H :=
  match type of H with
  | context [if ?c then _ else _] => destruct c eqn:?
  | context [match ?x with _ => _ end] => destruct x eqn:?
  end.

Lemma skipWs_length (s : jstring) : (List.length (skipWs s) <= List.length s)%nat.
Proof.
  induction s as [|c s IH]; simpl; [lia|].
  destruct ((c =? 9) || (c =? 10) || (c =? 13) || (c =? 32))%N; simpl; lia.
Qed.

Lemma skipWs_cons (s r : jstring) (c : N) :
  skipWs s = c :: r -> (List.length r < List.length s)%nat.
Proof. intros H. pose proof (skipWs_length s). rewrite H in *. simpl in *. lia. Qed.

Lemma parseStringBody_length (s str r : jstring) :
  parseStringBody s = Some (str, r) -> (List.length r < List.length s)%nat.
Proof.
  assert (G : forall n s, (List.length s < n)%nat -> forall str r,
             parseStringBody s = Some (str, r) -> (List.length r < List.length s)%nat);
    [|intros H; apply (G (S (List.length s)) s (Nat.lt_succ_diag_r _) str r H)].
  clear. induction n as [|n IHn]; intros s Hn str r H; [lia|].
  assert (IH : forall s' str' r', (List.length s' < List.length s)%nat ->
             parseStringBody s' = Some (str', r') ->
             (List.length r' < List.length s')%nat)
    by (intros s' str' r' Hs' H'; apply (IHn s') in H'; [exact H' | lia]).
  clear IHn. destruct s as [|c s0]; simpl in H; [discriminate|].
  unfold consTo in H.
  repeat (break_hyp H; try discriminate);
    inversion H; subst; simpl; try lia;
    match goal with
    | E : parseStringBody _ = Some _ |- _ => apply IH in E; simpl in *; lia
    end.
Qed.

Lemma spanDigits_length (s ds r : jstring) :
  spanDigits s = (ds, r) -> (List.length r <= List.length s)%nat.
Proof.
  revert ds r. induction s as [|c s IH]; intros ds r H; simpl in H.
  - inversion H; subst; simpl; lia.
  - destruct (isDigit c).
    + destruct (spanDigits s) as [ds' r'] eqn:E. inversion H; subst.
      specialize (IH _ _ eq_refl). simpl; lia.
    + inversion H; subst; simpl; lia.
Qed.

Lemma stripPrefix_length (p s r : jstring) :
  stripPrefix p s = Some r -> (List.length r <= List.length s)%nat.
Proof.
  revert s r. induction p as [|a p IH]; intros s r H; simpl in H.
  - inversion H; subst; lia.
  - destruct s as [|b s]; [discriminate|].
    destruct (a =? b)%N; [|discriminate]. apply IH in H. simpl; lia.
Qed.

Lemma parseNumber_length (s r : jstring) (n : number) :
  parseNumber s = Some (n, r) -> (List.length r <= List.length s)%nat.
Proof.
  unfold parseNumber. intros H.
  repeat (break_any; try discriminate);
    repeat match goal with
           | E : spanDigits _ = _ |- _ => apply spanDigits_length in E
           end;
    invert_results; subst; simpl in *; lia.
Qed.

Ltac note H :=
  let T := type of H in
  lazymatch goal with
  | _ : T |- _ => fail
  | _ => pose proof H
  end.

Ltac note_lengths :=
  repeat match goal with
         | E : skipWs ?s = ?c :: ?r |- _ => note (skipWs_cons s r c E)
         | E : parseStringBody ?s = Some (?k, ?r) |- _ =>
             note (parseStringBody_length s k r E)
         | E : parseNumber ?s = Some (?n, ?r) |- _ => note (parseNumber_length s r n E)
         | E : stripPrefix ?p ?s = Some ?r |- _ => note (stripPrefix_length p s r E)
         end.

Ltac replay :=
  repeat match goal with
         | E : ?x = _ |- context [?x] => rewrite E
         | Hf : forall g, (_ < g)%nat -> ?P g ?a = _ |- context [?P ?g0 ?a] =>
             rewrite (Hf g0) by (simpl in *; lia)
         | Hf : forall g, (_ < g)%nat -> ?P g ?a ?b = _ |- context [?P ?g0 ?a ?b] =>
             rewrite (Hf g0) by (simpl in *; lia)
         end.

Ltac finish_fuel :=
  invert_results; subst; note_lengths;
  split; [simpl in *; lia |];
  let g := fresh "g" in let Hg := fresh "Hg" in
  intros g Hg; destruct g as [|g]; [simpl in *; lia |];
  simpl; unfold literal; replay; reflexivity.

(** A parse that succeeds with some fuel succeeds, with the same result,
    with any fuel above the number of code units it consumes. *)
Lemma parse_fuel (f : nat) :
  (forall s v r, parseValue f s = Some (v, r) ->
     (List.length r <= List.length s)%nat /\
     forall g, (List.length s - List.length r < g)%nat -> parseValue g s = Some (v, r)) /\
  (forall s acc v r, parseElements f s acc = Some (v, r) ->
     (List.length r < List.length s)%nat /\
     forall g, (List.length s - List.length r < g)%nat ->
               parseElements g s acc = Some (v, r)) /\
  (forall s acc v r, parseMembers f s acc = Some (v, r) ->
     (List.length r < List.length s)%nat /\
     forall g, (List.length s - List.length r < g)%nat ->
               parseMembers g s acc = Some (v, r)).
Proof.
  induction f as [|f (IHV & IHE & IHM)]; [repeat split; discriminate|].
  split; [|split].
  - intros s v r H. simpl in H. unfold literal in H.
    repeat (break_any; try discriminate);
      try match goal with
          | E : parseMembers f _ _ = Some _ |- _ => destruct (IHM _ _ _ _ E)
          | E : parseElements f _ _ = Some _ |- _ => destruct (IHE _ _ _ _ E)
          end;
      finish_fuel.
  - intros s acc v r H. simpl in H.
    repeat (break_any; try discriminate);
      repeat match goal with
             | E : parseValue f _ = Some _ |- _ => destruct (IHV _ _ _ E); clear E
             | E : parseElements f _ _ = Some _ |- _ => destruct (IHE _ _ _ _ E); clear E
             end;
      finish_fuel.
  - intros s acc v r H. simpl in H.
    repeat (break_any; try discriminate);
      repeat match goal with
             | E : parseValue f _ = Some _ |- _ => destruct (IHV _ _ _ E); clear E
             | E : parseMembers f _ _ = Some _ |- _ => destruct (IHM _ _ _ _ E); clear E
             end;
      finish_fuel.
Qed.

(** The fuel [JSON_parse] gives its parser is enough: it succeeds exactly
    when some fuel parses the whole text, and throws when none does. *)
Lemma JSON_parse_adequate (text : jstring) (v : jsval) :
  JSON_parse text = Ok v <->
  exists f r, parseValue f text = Some (v, r) /\ skipWs r = [].
Proof.
  unfold JSON_parse. split.
  - destruct (parseValue (2 * List.length text + 2) text) as [[v' r]|] eqn:E;
      [|discriminate].
    destruct (skipWs r) eqn:Er; [|discriminate].
    intros H; inversion H; subst. eauto.
  - intros (f & r & Hp & Hr).
    destruct (parse_fuel f) as (HV & _). destruct (HV _ _ _ Hp) as [_ Hg].
    rewrite (Hg (2 * List.length text + 2)%nat) by lia. now rewrite Hr.
Qed.

Lemma continuation_length (n : nat) (s r : jstring) (os : list N) :
  continuation n s = Some (os, r) -> (List.length r <= List.length s)%nat.
Proof.
  revert s r os. induction n as [|n IH]; intros s r os H; simpl in H.
  - inversion H; subst; lia.
  - repeat (break_any; try discriminate); invert_results; subst.
    match goal with E : continuation n _ = Some _ |- _ => apply IH in E end.
    simpl in *; lia.
Qed.

(** The fuel of [decodeURIComponent] never runs out. *)
Lemma decodeFrom_fuel (f : nat) :
  forall s, (List.length s <= f)%nat -> decodeFrom f s = decodeFrom (List.length s) s.
Proof.
  induction f as [f IH] using lt_wf_ind. intros s Hs.
  destruct s as [|c r]; [destruct f; reflexivity|].
  destruct f as [|f]; [simpl in Hs; lia|]. simpl in Hs.
  assert (IH' : forall x, (List.length x <= List.length r)%nat ->
                decodeFrom f x = decodeFrom (List.length r) x).
  { intros x Hx. rewrite (IH f) by lia.
    symmetry. destruct (Nat.eq_dec (List.length r) (List.length x)) as [<-|Hne];
      [reflexivity | apply (IH (List.length r)); lia]. }
  cbn [List.length decodeFrom].
  destruct (negb (c =? ch "%")%N); [now rewrite IH'|].
  destruct r as [|h1 [|h2 r']]; try reflexivity.
  destruct (hexOf h1); [|reflexivity]. destruct (hexOf h2); [|reflexivity].
  cbv zeta.
  destruct (_ <? 128)%N; [rewrite IH' by (simpl; lia); reflexivity|].
  match goal with |- context [if ?c then Throw URIError else _] => destruct c end;
    [reflexivity|].
  match goal with |- context [continuation ?n r'] =>
    destruct (continuation n r') as [[os r'']|] eqn:E end; [|reflexivity].
  apply continuation_length in E.
  destruct (codePoint _ os); [|reflexivity].
  rewrite IH' by (simpl; lia). reflexivity.
Qed.

(* ================================================================== *)
(** ** The configuration *)
(* ================================================================== *)


(** X1. [sanitizeEndpoint] returns an address of [VALID_ENDPOINTS] whatever
    the page asks for, and the Rubicon one only for the name [rubicon]. *)
Theorem sanitizeEndpoint_allowlist (value : jstring) :
  In (sanitizeEndpoint value) (map snd VALID_ENDPOINTS) /\
  (sanitizeEndpoint value
   = s2j "https://prebid-server.rubiconproject.com/cookie_sync"
   <-> value = s2j "rubicon").
Proof.
  assert (Hd : s2j "https://prebid.adnxs.com/pbs/v1/cookie_sync"
               <> s2j "https://prebid-server.rubiconproject.com/cookie_sync")
    by discriminate.
  unfold sanitizeEndpoint, VALID_ENDPOINTS. cbn [map snd].
  destruct value as [|c v].
  - split; [right; left; reflexivity | split; intros E; [congruence | discriminate]].
  - cbn [assoc]. destruct (jseqb (c :: v) (s2j "rubicon")) eqn:R.
    + apply jseqb_eq in R. split; [left; reflexivity | split; auto].
    + assert (Hne : c :: v <> s2j "rubicon")
        by (intros E; rewrite E, jseqb_refl in R; discriminate).
      destruct (jseqb (c :: v) (s2j "appnexus"));
        (split; [right; left; reflexivity | split; intros E; congruence]).
Qed.



(* ================================================================== *)
(** ** The search string *)
(* ================================================================== *)










Lemma decodeFrom_throws (f : nat) :
  forall s e, decodeFrom f s = Throw e -> e = URIError.
Proof.
  induction f as [|f IH]; intros s e H; destruct s as [|c r]; simpl in H;
    try discriminate; [congruence|].
  unfold bind in H.
  repeat (break_any; try discriminate); try congruence;
    match goal with
    | E : decodeFrom f _ = Throw _ |- _ => apply IH in E; congruence
    end.
Qed.

Lemma parseQueryParam_throws (name : string) (search : jstring) (e : exn) :
  parseQueryParam name search = Throw e -> e = URIError.
Proof.
  unfold parseQueryParam, decodeURIComponent.
  destruct (execParam (s2j name) search); [apply decodeFrom_throws | discriminate].
Qed.

(** X4. The script reads its five parameters before it does anything else,
    and a percent escape that [decodeURIComponent] refuses in any of them
    ends it there with a URIError: the constants exist exactly when all
    five values decode. *)
Theorem loadConfig_throws (search : jstring) :
  (forall e, loadConfig search = Throw e -> e = URIError) /\
  ((exists name e, In name parameterNames /\
                   parseQueryParam name search = Throw e)
   <-> loadConfig search = Throw URIError).
Proof.
  unfold loadConfig, bind, parameterNames.
  destruct (parseQueryParam "endpoint" search) as [v1|e1] eqn:E1;
  [destruct (parseQueryParam "args" search) as [v2|e2] eqn:E2;
   [destruct (parseQueryParam "max_sync_count" search) as [v3|e3] eqn:E3;
    [destruct (parseQueryParam "timeout" search) as [v4|e4] eqn:E4;
     [destruct (parseQueryParam "defaultGdprScope" search) as [v5|e5] eqn:E5|]|]|]|].
  all: repeat match goal with
              | E : parseQueryParam _ _ = Throw _ |- _ =>
                  pose proof (parseQueryParam_throws _ _ _ E); subst; revert E
              end; intros.
  all: split; [intros e H; congruence|].
  all: split; [intros (name & e & Hin & H) | intros H; try discriminate].
  all: try reflexivity.
  - simpl in Hin. intuition (subst; congruence).
  - exists "defaultGdprScope"%string, URIError. simpl. tauto.
  - exists "timeout"%string, URIError. simpl. tauto.
  - exists "max_sync_count"%string, URIError. simpl. tauto.
  - exists "args"%string, URIError. simpl. tauto.
  - exists "endpoint"%string, URIError. simpl. tauto.
Qed.

Lemma loadConfig_throws_witness :
  loadConfig (s2j "?endpoint=rubicon&timeout=100%") = Throw URIError.
Proof.
  apply (loadConfig_throws (s2j "?endpoint=rubicon&timeout=100%")).
  exists "timeout"%string, URIError. split; [simpl; tauto | reflexivity].
Defined.

(* ================================================================== *)
(** ** The endpoint arguments *)
(* ================================================================== *)










Lemma split_nonempty (sep : N) (s : jstring) : split sep s <> [].
Proof.
  destruct s as [|c s]; simpl; [discriminate|].
  destruct (c =? sep)%N; [discriminate|]. destruct (split sep s); discriminate.
Qed.

Lemma split_whole (sep : N) (x : jstring) :
  forallb (fun c => negb (c =? sep)%N) x = true -> split sep x = [x].
Proof.
  induction x as [|c x IH]; simpl; [reflexivity|]. intros H.
  apply andb_true_iff in H as [Hc Hx]. apply negb_true_iff in Hc.
  rewrite Hc, (IH Hx). reflexivity.
Qed.

Lemma split_last (sep : N) (pre x : jstring) :
  forallb (fun c => negb (c =? sep)%N) x = true ->
  split sep (pre ++ sep :: x) = split sep pre ++ [x].
Proof.
  intros Hx. induction pre as [|c pre IH]; simpl.
  - now rewrite N.eqb_refl, (split_whole _ _ Hx).
  - destruct (c =? sep)%N; [now rewrite IH|]. rewrite IH.
    pose proof (split_nonempty sep pre). destruct (split sep pre); [congruence|].
    reflexivity.
Qed.

Lemma noSeparator_inv (w : jstring) :
  noSeparator w = true ->
  forallb (fun c => negb (c =? ch ",")%N) w = true /\
  forallb (fun c => negb (c =? ch ":")%N) w = true.
Proof.
  unfold noSeparator. induction w as [|c w IH]; [auto|]. cbn [forallb]. intros H.
  apply andb_true_iff in H as [Hc Hw]. destruct (IH Hw) as [H1 H2].
  rewrite H1, H2. apply negb_true_iff, orb_false_iff in Hc as [E1 E2].
  rewrite E1, E2. auto.
Qed.

Lemma addArg_pair (acc : list (jstring * jsval)) (k v : jstring) :
  k <> [] -> v <> [] -> k <> s2j "__proto__" ->
  noSeparator k = true -> noSeparator v = true ->
  addArg acc (k ++ ch ":" :: v) = objSet k (argValue v) acc.
Proof.
  intros Hk Hv Hp Nk Nv. unfold addArg.
  destruct (noSeparator_inv k Nk) as [_ Ck].
  destruct (noSeparator_inv v Nv) as [_ Cv].
  rewrite (split_last _ k v Cv), (split_whole _ k Ck). cbn [List.app].
  destruct k as [|a k]; [congruence|]. destruct v as [|b v]; [congruence|].
  destruct (jseqb (a :: k) (s2j "__proto__")) eqn:E; [|reflexivity].
  apply jseqb_eq in E. congruence.
Qed.

Lemma objSet_nonempty (k : jstring) (v : jsval) (fs : list (jstring * jsval)) :
  objSet k v fs <> [].
Proof. destruct fs as [|[k0 v0] fs]; simpl; [|destruct (jseqb k k0)]; discriminate. Qed.

(** X6. In the text of the endpoint arguments the last pair decides: after
    any text and a comma, a pair [key:value] with both parts non-empty, free
    of comma and colon, and a key other than [__proto__], makes the result
    an object in which the key has that value, as a number when the value is
    all digits; and such a pair alone makes the object with that one
    property. *)
Theorem sanitizeEndpointArgs_last (pre k v : jstring) :
  k <> [] -> v <> [] -> k <> s2j "__proto__" ->
  noSeparator k = true -> noSeparator v = true ->
  (exists fs, sanitizeEndpointArgs (pre ++ ch "," :: k ++ ch ":" :: v) = VObj fs /\
              lookup k fs = Some (argValue v)) /\
  sanitizeEndpointArgs (k ++ ch ":" :: v) = VObj [(k, argValue v)].
Proof.
  intros Hk Hv Hp Nk Nv.
  assert (Nx : forallb (fun c => negb (c =? ch ",")%N) (k ++ ch ":" :: v) = true).
  { rewrite forallb_app. destruct (noSeparator_inv k Nk) as [-> _].
    destruct (noSeparator_inv v Nv) as [Cv _]. cbn [forallb]. now rewrite Cv. }
  split.
  - unfold sanitizeEndpointArgs.
    destruct (pre ++ ch "," :: k ++ ch ":" :: v) as [|c r] eqn:E;
      [destruct pre; discriminate|].
    rewrite <- E, (split_last _ pre _ Nx), fold_left_app. cbn [fold_left].
    rewrite (addArg_pair _ k v Hk Hv Hp Nk Nv).
    pose proof (objSet_nonempty k (argValue v)
                  (fold_left addArg (split (ch ",") pre) [])) as Hne.
    pose proof (lookup_objSet k k (argValue v)
                  (fold_left addArg (split (ch ",") pre) [])) as Hl.
    rewrite jseqb_refl in Hl.
    destruct (objSet k (argValue v) _) as [|kv l]; [congruence|]. eauto.
  - unfold sanitizeEndpointArgs.
    destruct (k ++ ch ":" :: v) as [|c r] eqn:E; [destruct k; discriminate|].
    rewrite <- E in Nx |- *. rewrite (split_whole _ _ Nx). cbn [fold_left].
    now rewrite (addArg_pair _ k v Hk Hv Hp Nk Nv).
Qed.

Lemma sanitizeEndpointArgs_last_witness :
  exists fs, sanitizeEndpointArgs (s2j "account:1,zone:east,account:22") = VObj fs /\
             lookup (s2j "account") fs = Some (VNum (Int 22)).
Proof.
  apply (sanitizeEndpointArgs_last (s2j "account:1,zone:east") (s2j "account")
           (s2j "22")); try reflexivity; discriminate.
Defined.

(* ================================================================== *)
(** ** The consent fields of the payload *)
(* ================================================================== *)

(** X7. In the payload the consent decides over the endpoint arguments of
    the page: with consent metadata that says the regulation applies,
    [gdpr] is 1 and [gdpr_consent] is the consent string, or the empty
    string when there is none; with metadata that says it does not apply,
    [gdpr] is 0 and [gdpr_consent] is left as the arguments have it; with no
    metadata both are left as the arguments have them.  [limit] is the sync
    count in every case and no other property changes. *)
Theorem payload_consent (cfg : config) (consent endPointArgs cm : jsval)
  (data : list (jstring * jsval)) :
  payload cfg consent endPointArgs = Ok data ->
  getProp consent (s2j "consentMetadata") = Ok cm ->
  let args := argFields endPointArgs in
  lookup (s2j "limit") data = Some (VNum (MAX_SYNC_COUNT cfg)) /\
  (forall k, jseqb k (s2j "limit") = false -> jseqb k (s2j "gdpr") = false ->
             jseqb k (s2j "gdpr_consent") = false ->
             lookup k data = lookup k args) /\
  (truthy cm = false ->
     lookup (s2j "gdpr") data = lookup (s2j "gdpr") args /\
     lookup (s2j "gdpr_consent") data = lookup (s2j "gdpr_consent") args) /\
  (truthy cm = true ->
     exists applies, getProp cm (s2j "gdprApplies") = Ok applies /\
       (truthy applies = false ->
          lookup (s2j "gdpr") data = Some (VNum (Int 0)) /\
          lookup (s2j "gdpr_consent") data = lookup (s2j "gdpr_consent") args) /\
       (truthy applies = true ->
          lookup (s2j "gdpr") data = Some (VNum (Int 1)) /\
          exists cs, getProp consent (s2j "consentString") = Ok cs /\
            lookup (s2j "gdpr_consent") data
            = Some (if truthy cs then cs else VStr []))).
Proof.
  intros H Hcm args. unfold payload in H. fold (argFields endPointArgs) in H.
  fold args in H. unfold attachConsent, bind in H. rewrite Hcm in H.
  assert (L1 : jseqb (s2j "limit") (s2j "gdpr") = false) by reflexivity.
  assert (L2 : jseqb (s2j "limit") (s2j "gdpr_consent") = false) by reflexivity.
  assert (L3 : jseqb (s2j "gdpr") (s2j "gdpr_consent") = false) by reflexivity.
  assert (L4 : jseqb (s2j "gdpr") (s2j "limit") = false) by reflexivity.
  assert (L5 : jseqb (s2j "gdpr_consent") (s2j "limit") = false) by reflexivity.
  assert (L6 : jseqb (s2j "gdpr_consent") (s2j "gdpr") = false) by reflexivity.
  destruct (truthy cm) eqn:Tcm.
  - destruct (getProp cm (s2j "gdprApplies")) as [applies|e] eqn:Ha; [|discriminate].
    destruct (truthy applies) eqn:Tap.
    + destruct (getProp consent (s2j "consentString")) as [cs|e] eqn:Hcs;
        [|discriminate].
      inversion H; subst; clear H.
      repeat split; try discriminate.
      * now rewrite !lookup_objSet, L2, L1, jseqb_refl.
      * intros k K1 K2 K3. now rewrite !lookup_objSet, K3, K2, K1.
      * intros _. exists applies. split; [reflexivity|]. split; [congruence|].
        intros _. split.
        -- now rewrite !lookup_objSet, L3, jseqb_refl.
        -- exists cs. split; [reflexivity|]. now rewrite lookup_objSet, jseqb_refl.
    + inversion H; subst; clear H.
      repeat split; try discriminate.
      * now rewrite !lookup_objSet, L1, jseqb_refl.
      * intros k K1 K2 K3. now rewrite !lookup_objSet, K2, K1.
      * intros _. exists applies. split; [reflexivity|]. split; [|congruence].
        intros _. split.
        -- now rewrite lookup_objSet, jseqb_refl.
        -- now rewrite !lookup_objSet, L6, L5.
  - inversion H; subst; clear H.
    repeat split; try discriminate.
    + now rewrite lookup_objSet, jseqb_refl.
    + intros k K1 K2 K3. now rewrite lookup_objSet, K1.
    + now rewrite lookup_objSet, L4.
    + now rewrite lookup_objSet, L5.
Qed.

Lemma payload_consent_witness :
  exists data,
    payload defaultConfig consentData
            (VObj [(s2j "gdpr", VNum (Int 0)); (s2j "account", VNum (Int 7))])
    = Ok data /\
    lookup (s2j "gdpr") data = Some (VNum (Int 1)) /\
    lookup (s2j "account") data = Some (VNum (Int 7)).
Proof.
  eexists. split; [reflexivity|].
  pose proof (payload_consent defaultConfig consentData
                (VObj [(s2j "gdpr", VNum (Int 0)); (s2j "account", VNum (Int 7))])
                _ _ eq_refl eq_refl) as (_ & Hk & _ & Ht).
  split.
  - destruct (Ht eq_refl) as (applies & Ha & _ & H1).
    inversion Ha; subst. exact (proj1 (H1 eq_refl)).
  - rewrite (Hk (s2j "account")) by reflexivity. reflexivity.
Defined.

(* ================================================================== *)
(** ** The page over a whole load *)
(* ================================================================== *)

Lemma deliver_app (f : page -> event -> page * list action)
  (evs1 evs2 : list event) (st : page) :
  deliver f st (evs1 ++ evs2)
  = (fst (deliver f (fst (deliver f st evs1)) evs2),
     snd (deliver f st evs1) ++ snd (deliver f (fst (deliver f st evs1)) evs2)).
Proof.
  revert st. induction evs1 as [|e1 evs1 IH]; intros st; simpl.
  - now destruct (deliver f st evs2).
  - destruct (f st e1) as [st1 t1]. rewrite IH.
    destruct (deliver f st1 evs1) as [st2 t2]. simpl. now rewrite app_assoc.
Qed.

Lemma init_keeps (cfg : config) (st : page) :
  consent (fst (init cfg st)) = consent st /\
  timerArmed (fst (init cfg st)) = timerArmed st /\
  queue (fst (init cfg st)) = queue st /\
  loading (fst (init cfg st)) = loading st /\
  syncRan (fst (init cfg st)) = true /\
  (awaiting (fst (init cfg st)) = true \/
   awaiting (fst (init cfg st)) = awaiting st).
Proof.
  unfold init. destruct (getStringifiedData cfg (consent st) (ENDPOINT_ARGS cfg));
    simpl; auto 10.
Qed.

Lemma onMessage_consent (cfg : config) (st : page) (data : jsval) :
  isConsentMessage (EMessage data) = true ->
  onMessage cfg st data
  = let st1 := disarm {| consent := data; syncRan := syncRan st;
                         timerArmed := timerArmed st; awaiting := awaiting st;
                         queue := queue st; loading := loading st |} in
    if syncRan st then (st1, [])
    else (fst (init cfg st1), report (snd (init cfg st1))).
Proof.
  unfold isConsentMessage, onMessage. intros H.
  destruct (getProp data (s2j "type")) as [ty|e]; [|discriminate].
  rewrite H. cbn [disarm syncRan negb].
  destruct (syncRan st); cbn [negb]; [reflexivity|].
  now destruct (init cfg _).
Qed.

Lemma onMessage_other (cfg : config) (st : page) (data : jsval) :
  isConsentMessage (EMessage data) = false ->
  fst (onMessage cfg st data) = st /\
  (snd (onMessage cfg st data) = [] \/
   snd (onMessage cfg st data) = [Uncaught TypeError] /\
   (data = VNull \/ data = VUndef)).
Proof.
  unfold isConsentMessage, onMessage. intros H.
  destruct (getProp data (s2j "type")) as [ty|e] eqn:E.
  - rewrite H. auto.
  - split; [reflexivity|]. right.
    destruct data; try discriminate; inversion E; auto.
Qed.

Lemma step_disarmed (cfg : config) (st : page) (ev : event) :
  timerArmed st = false -> timerArmed (fst (step cfg st ev)) = false.
Proof.
  intros T. unfold step. destruct (enabled st ev) eqn:En; [|assumption].
  destruct ev as [data| |status body|]; cbn [handle].
  - destruct (isConsentMessage (EMessage data)) eqn:C.
    + rewrite (onMessage_consent cfg st data C). cbv zeta.
      destruct (syncRan st); [reflexivity|].
      cbn [fst]. now rewrite (proj1 (proj2 (init_keeps cfg _))).
    + now rewrite (proj1 (onMessage_other cfg st data C)).
  - simpl in En. congruence.
  - unfold onResponse. destruct (succeeded status); [|assumption].
    destruct (process body) as [t [[r|]|e]]; assumption.
  - assumption.
Qed.

Lemma timeouts_idle (cfg : config) (evs : list event) :
  forall st, timerArmed st = false ->
  deliver (step cfg) st evs
  = deliver (step cfg) st (filter (fun ev => negb (isTimeout ev)) evs).
Proof.
  induction evs as [|ev evs IH]; intros st T; [reflexivity|].
  destruct (isTimeout ev) eqn:E.
  - destruct ev; try discriminate. cbn [filter isTimeout negb deliver].
    unfold step at 1. cbn [enabled]. rewrite T. rewrite (IH st T).
    now destruct (deliver (step cfg) st _).
  - cbn [filter]. rewrite E. cbn [negb deliver].
    pose proof (step_disarmed cfg st ev T) as T1.
    destruct (step cfg st ev) as [st1 t1]. cbn [fst] in T1.
    now rewrite (IH st1 T1).
Qed.

(** X8. A consent-data message cancels the timer for good: whatever came
    before it, the timer events after it do nothing, not even the log line,
    so the page acts as if they had never been delivered. *)
Theorem timer_cancelled (cfg : config) (pre evs : list event) (data : jsval) :
  isConsentMessage (EMessage data) = true ->
  pageLoad cfg (pre ++ EMessage data :: evs)
  = pageLoad cfg (pre ++ EMessage data :: filter (fun ev => negb (isTimeout ev)) evs).
Proof.
  intros C. unfold pageLoad. f_equal. rewrite !deliver_app. cbn [snd]. f_equal.
  set (st := fst (deliver (step cfg) boot pre)).
  cbn [deliver]. unfold step at 1 3. cbn [enabled handle].
  assert (T : timerArmed (fst (onMessage cfg st data)) = false).
  { rewrite (onMessage_consent cfg st data C). cbv zeta.
    destruct (syncRan st); [reflexivity|].
    cbn [fst]. now rewrite (proj1 (proj2 (init_keeps cfg _))). }
  destruct (onMessage cfg st data) as [st1 t1]. cbn [fst] in T.
  now rewrite (timeouts_idle cfg evs st1 T).
Qed.

Lemma timer_cancelled_witness :
  pageLoad defaultConfig [EMessage consentData; ETimeout; ETimeout]
  = pageLoad defaultConfig [EMessage consentData].
Proof.
  apply (timer_cancelled defaultConfig [] [ETimeout; ETimeout] consentData).
  reflexivity.
Defined.

Lemma onTimeout_cases (cfg : config) (st : page) :
  onTimeout cfg st
  = if syncRan st then (disarm st, [])
    else if truthyNum (DEFAULT_GDPR_SCOPE cfg)
         then (disarm st,
               [ConsoleLog (s2j "Message listener timed out. No consent data was returned.")])
         else (fst (init cfg (disarm st)),
               report (snd (init cfg (disarm st)) ;;;
                       emit (ConsoleLog
                         (s2j "Message listener timed out. No consent data was returned.")))).
Proof.
  unfold onTimeout. cbn [disarm syncRan].
  destruct (syncRan st); cbn [negb]; [reflexivity|].
  destruct (truthyNum (DEFAULT_GDPR_SCOPE cfg)); cbn [negb]; [reflexivity|].
  now destruct (init cfg _).
Qed.

Lemma settle_keeps (st : page) (r : run) :
  consent (fst (settle st r)) = consent st /\
  syncRan (fst (settle st r)) = syncRan st /\
  timerArmed (fst (settle st r)) = timerArmed st /\
  awaiting (fst (settle st r)) = awaiting st /\
  (loading (fst (settle st r)) <= S (loading st))%nat /\
  (loading st <= loading (fst (settle st r)))%nat.
Proof. unfold settle; simpl. destruct (ending r); repeat split; lia. Qed.

Lemma onResponse_keeps (st : page) (status : Z) (body : jstring) :
  consent (fst (onResponse st status body)) = consent st /\
  syncRan (fst (onResponse st status body)) = syncRan st /\
  timerArmed (fst (onResponse st status body)) = timerArmed st /\
  awaiting (fst (onResponse st status body)) = false /\
  (loading (fst (onResponse st status body)) <= S (loading st))%nat.
Proof.
  unfold onResponse. destruct (succeeded status); [|simpl; repeat split; lia].
  destruct (process body) as [t [[r|]|e]]; try (simpl; repeat split; lia).
  pose proof (settle_keeps (answered st) r) as (H1 & H2 & H3 & H4 & H5 & _).
  destruct (settle (answered st) r) as [st' t']. simpl in *. auto.
Qed.

Lemma sequential_same (st st' : page) :
  loading st' = loading st -> awaiting st' = awaiting st ->
  syncRan st' = syncRan st -> sequential st -> sequential st'.
Proof. unfold sequential. intros -> -> ->. auto. Qed.

Lemma sequential_init (cfg : config) (st : page) :
  loading st = 0%nat -> sequential (fst (init cfg st)).
Proof.
  intros L0. destruct (init_keeps cfg st) as (_ & _ & _ & Hl & Hr & _).
  unfold sequential. rewrite Hl, Hr, L0. repeat split; auto; discriminate.
Qed.

Lemma step_sequential (cfg : config) (st : page) (ev : event) :
  sequential st -> sequential (fst (step cfg st ev)).
Proof.
  intros H. pose proof H as (L & A & R).
  unfold step. destruct (enabled st ev) eqn:En; [|exact H].
  destruct ev as [data| |status body|]; cbn [handle enabled] in *.
  - destruct (isConsentMessage (EMessage data)) eqn:C.
    + rewrite (onMessage_consent cfg st data C). cbv zeta.
      case_eq (syncRan st); intros S; cbn [fst].
      * apply (sequential_same st); auto.
      * apply sequential_init. simpl. now destruct (R S).
    + now rewrite (proj1 (onMessage_other cfg st data C)).
  - rewrite onTimeout_cases. case_eq (syncRan st); intros S.
    + apply (sequential_same st); auto.
    + destruct (truthyNum (DEFAULT_GDPR_SCOPE cfg)); cbn [fst].
      * apply (sequential_same st); auto.
      * apply sequential_init. simpl. now destruct (R S).
  - destruct (onResponse_keeps st status body) as (_ & H2 & _ & H4 & H5).
    specialize (A En). unfold sequential. rewrite H2, H4.
    split; [lia|]. split; [discriminate|].
    intros S. destruct (R S). congruence.
  - apply Nat.ltb_lt in En.
    assert (Sr : syncRan st = true)
      by (destruct (syncRan st); [reflexivity | destruct (R eq_refl); lia]).
    assert (Aw : awaiting st = false)
      by (destruct (awaiting st); [specialize (A eq_refl); lia | reflexivity]).
    unfold onLoad, sequential, settle. simpl. rewrite Sr, Aw.
    destruct (ending (doAllSyncs (queue st))); (split; [lia|]); split; discriminate.
Qed.

(** X9. Over a whole page load, whatever the events and their order, at
    most one image or frame is loading at any time, and none before the
    answer to the request has come. *)
Theorem one_sync_in_flight (cfg : config) (evs : list event) :
  sequential (fst (deliver (step cfg) boot evs)).
Proof.
  assert (G : forall st, sequential st ->
                         sequential (fst (deliver (step cfg) st evs))).
  { induction evs as [|ev evs IH]; intros st H; [exact H|]. simpl.
    pose proof (step_sequential cfg st ev H) as H1.
    destruct (step cfg st ev) as [st1 t1]. specialize (IH st1 H1).
    now destruct (deliver (step cfg) st1 evs). }
  apply G. unfold sequential, boot. simpl. repeat split; auto.
Qed.









(* ================================================================== *)
(** ** The dispatcher on any response *)
(* ================================================================== *)

Lemma doBidderSync_transports (type url bidder : jsval) :
  List.length (filter isTransport (fst (doBidderSync type url bidder)))
  = match snd (doBidderSync type url bidder) with
    | Ok OnImage | Ok OnIframe => 1%nat
    | _ => 0%nat
    end.
Proof. unfold doBidderSync. unfold_M. case_atoms; reflexivity. Qed.

Lemma doBidderSyncOf_transports (thisSync : jsval) :
  List.length (filter isTransport (fst (doBidderSyncOf thisSync)))
  = match snd (doBidderSyncOf thisSync) with
    | Ok OnImage | Ok OnIframe => 1%nat
    | _ => 0%nat
    end.
Proof.
  unfold doBidderSyncOf. unfold bindM at 1 2 3 4 5 6 7 8. unfold lift.
  repeat (match goal with
          | |- context [match getProp ?a ?b with _ => _ end] =>
              destruct (getProp a b)
          end; cbn [fst snd]; try reflexivity).
  match goal with
  | |- context [doBidderSync ?a ?b ?c] =>
      pose proof (doBidderSync_transports a b c) as H;
      destruct (doBidderSync a b c) as [t r]
  end.
  cbn [fst snd List.app] in *. exact H.
Qed.

(** X12. On any array, well formed or not, a run of [doAllSyncs] takes
    elements from the tail only, starts at most one image or frame and then
    waits for it, starts none when it ends otherwise, and ends [Drained]
    only with the array empty. *)
Theorem doAllSyncs_run (bidders : list jsval) :
  (exists popped, bidders = remaining (doAllSyncs bidders) ++ popped) /\
  List.length (filter isTransport (acts (doAllSyncs bidders)))
  = match ending (doAllSyncs bidders) with Waiting => 1%nat | _ => 0%nat end /\
  (ending (doAllSyncs bidders) = Drained -> remaining (doAllSyncs bidders) = []).
Proof.
  induction bidders as [|x l (IH1 & IH2 & IH3)] using rev_ind.
  - rewrite doAllSyncs_nil. simpl. split; [exists []; reflexivity | auto].
  - rewrite doAllSyncs_snoc. unfold visit.
    assert (Hk : exists popped,
               l ++ [x] = remaining (doAllSyncs l) ++ popped).
    { destruct IH1 as [p Hp]. exists (p ++ [x]). rewrite app_assoc. congruence. }
    destruct (getProp x (s2j "no_cookie")) as [nc|e];
      [|simpl; split; [exists [x]; reflexivity | split; [reflexivity | discriminate]]].
    destruct (truthy nc); [|auto].
    pose proof (doBidderSyncOf_transports x) as Ht.
    destruct (doBidderSyncOf x) as [t [[]|e]]; cbn [fst snd] in Ht; simpl.
    + split; [assumption|]. rewrite filter_app, length_app, Ht. auto.
    + split; [exists [x]; reflexivity | split; [assumption | discriminate]].
    + split; [exists [x]; reflexivity | split; [assumption | discriminate]].
    + split; [exists [x]; reflexivity | split; [assumption | discriminate]].
    + split; [exists [x]; reflexivity | split; [assumption | discriminate]].
Qed.

(** X13. One malformed element ends the run and strands the bidders before
    it: when the element at the tail is null or undefined, or asks for a
    sync ([no_cookie] truthy) and has no [usersync] object, [doAllSyncs]
    throws a TypeError before it starts or logs anything, and the elements
    before it stay in the array with nothing left to resume the run. *)
Theorem malformed_bidder_stops (l : list jsval) (x : jsval) (e : exn) :
  getProp x (s2j "no_cookie") = Throw e \/
  (exists nc us, getProp x (s2j "no_cookie") = Ok nc /\ truthy nc = true /\
                 getProp x (s2j "usersync") = Ok us /\
                 getProp us (s2j "type") = Throw e) ->
  e = TypeError /\
  doAllSyncs (l ++ [x]) = {| acts := []; ending := Threw e; remaining := l |}.
Proof.
  assert (Ht : forall v name e', getProp v name = Throw e' -> e' = TypeError)
    by (intros v name e' H; destruct v; simpl in H; congruence).
  intros [H | (nc & us & H1 & H2 & H3 & H4)].
  - split; [now apply (Ht _ _ _ H)|]. rewrite doAllSyncs_snoc. unfold visit.
    now rewrite H.
  - split; [now apply (Ht _ _ _ H4)|]. rewrite doAllSyncs_snoc. unfold visit.
    rewrite H1, H2. unfold doBidderSyncOf, bindM, lift. now rewrite H3, H4.
Qed.

Lemma malformed_bidder_stops_witness :
  doAllSyncs (map encode [bidderA; bidderB]
              ++ [VObj [(s2j "bidder", VStr (s2j "c")); (s2j "no_cookie", VBool true)]])
  = {| acts := []; ending := Threw TypeError;
       remaining := map encode [bidderA; bidderB] |}.
Proof.
  apply (malformed_bidder_stops (map encode [bidderA; bidderB])
           (VObj [(s2j "bidder", VStr (s2j "c")); (s2j "no_cookie", VBool true)])
           TypeError).
  right. exists (VBool true), VUndef. repeat split.
Defined.

Lemma traceOf_settle (st : page) (r : run) : snd (settle st r) = traceOf r.
Proof. reflexivity. Qed.

Lemma traceOf_after (t : list action) (r : run) :
  traceOf (after t r) = t ++ traceOf r.
Proof. unfold traceOf, after. simpl. now rewrite app_assoc. Qed.

Lemma loads_idle (cfg : config) (n : nat) (st : page) :
  loading st = 0%nat -> deliver (step cfg) st (repeat ELoad n) = (st, []).
Proof.
  intros L. induction n as [|n IH]; [reflexivity|]. simpl.
  unfold step at 1. cbn [enabled]. rewrite L. cbn [Nat.ltb Nat.leb].
  now rewrite IH.
Qed.

Lemma loads_resume (cfg : config) (n : nat) :
  forall r st, loading st = 0%nat ->
  snd (settle st r) ++ snd (deliver (step cfg) (fst (settle st r)) (repeat ELoad n))
  = traceOf (resume n r).
Proof.
  induction n as [|n IH]; intros r st L.
  - simpl. now rewrite app_nil_r.
  - destruct (ending r) eqn:E.
    1, 3, 4:
      rewrite loads_idle by (unfold settle; simpl; now rewrite E);
      cbn [snd]; rewrite app_nil_r; cbn [resume]; rewrite E; reflexivity.
    cbn [repeat deliver]. unfold step at 1. cbn [enabled].
    replace (loading (fst (settle st r))) with 1%nat
      by (unfold settle; simpl; now rewrite E, L).
    cbn [Nat.ltb Nat.leb handle]. unfold onLoad.
    replace (queue (fst (settle st r))) with (remaining r) by reflexivity.
    match goal with |- context [settle ?s (doAllSyncs (remaining r))] =>
      specialize (IH (doAllSyncs (remaining r)) s);
      destruct (settle s (doAllSyncs (remaining r))) as [s1 t1] eqn:Es end.
    cbn [fst snd] in IH.
    destruct (deliver (step cfg) s1 (repeat ELoad n)) as [s2 t2].
    cbn [fst snd] in *. simpl resume. rewrite E, traceOf_after, <- IH.
    + unfold settle. simpl. rewrite E. now rewrite app_nil_r.
    + simpl. unfold settle. simpl. now rewrite E, L.
Qed.

Lemma doAllSyncsOn_array (l : list jsval) : doAllSyncsOn (VArr l) = doAllSyncs l.
Proof.
  unfold doAllSyncsOn. cbn [getProp]. rewrite jseqb_refl.
  destruct l as [|x l]; [reflexivity|].
  unfold strictEqZero, strictEqNum, Int. cbn [List.length].
  destruct (_ =? _) eqn:E; [|reflexivity].
  apply Z.eqb_eq in E. rewrite Z.min_id, Z.sub_diag, Z.pow_0_r in E. lia.
Qed.

(** X14. The page performs a response this way: when the request is
    pending and the answer succeeds with status [ok] or [no_cookie] and an
    array as [bidder_status], the actions of the answer and of the next [n]
    completions are those of [doAllSyncs] on the array resumed [n] times,
    with the exception that ended it, if one did. *)
Theorem page_dispatch (cfg : config) (st : page) (status : Z) (body : jstring)
  (v s : jsval) (l : list jsval) (n : nat) :
  awaiting st = true -> loading st = 0%nat -> succeeded status = true ->
  JSON_parse body = Ok v ->
  getProp v (s2j "status") = Ok s ->
  strictEqStr s (s2j "ok") || strictEqStr s (s2j "no_cookie") = true ->
  getProp v (s2j "bidder_status") = Ok (VArr l) ->
  snd (deliver (step cfg) st (EResponse status body :: repeat ELoad n))
  = traceOf (resume n (doAllSyncs l)).
Proof.
  intros A L Hs Hv Hst Hok Hb.
  cbn [deliver]. unfold step at 1. cbn [enabled handle]. rewrite A.
  unfold onResponse, process. unfold_M. rewrite Hs, Hv, Hst, Hok, Hb.
  cbn [truthy]. rewrite doAllSyncsOn_array.
  pose proof (loads_resume cfg n (doAllSyncs l) (answered st) L) as H.
  destruct (settle (answered st) (doAllSyncs l)) as [s1 t1].
  cbn [fst snd] in *.
  destruct (deliver (step cfg) s1 (repeat ELoad n)) as [s2 t2].
  cbn [fst snd List.app] in *. exact H.
Qed.

Lemma page_dispatch_witness :
  snd (deliver (step defaultConfig)
         (fst (step defaultConfig boot (EMessage consentData)))
         (EResponse 200 twoEligible :: repeat ELoad 2))
  = [ConsoleLog (q' "Invoking image pixel user sync for bidder: 'b'");
     ImageSrc (s2j "https://y.test/sync");
     ConsoleLog (q' "Invoking image pixel user sync for bidder: 'a'");
     ImageSrc (s2j "https://x.test/sync")].
Proof.
  rewrite (page_dispatch defaultConfig
             (fst (step defaultConfig boot (EMessage consentData)))
             200 twoEligible _ (VStr (s2j "ok")) _ 2
             eq_refl eq_refl eq_refl eq_refl eq_refl eq_refl eq_refl).
  reflexivity.
Defined.

(** X15. A [bidder_status] that is truthy and not an array, and whose
    [length] is not 0, makes [process] fail: [pop] is no function of it, the
    TypeError leaves the handler uncaught and nothing is synced. *)
Theorem bidder_status_not_array (st : page) (status : Z) (body : jstring)
  (v s bs len : jsval) :
  succeeded status = true ->
  JSON_parse body = Ok v ->
  getProp v (s2j "status") = Ok s ->
  strictEqStr s (s2j "ok") || strictEqStr s (s2j "no_cookie") = true ->
  getProp v (s2j "bidder_status") = Ok bs ->
  truthy bs = true ->
  (forall l, bs <> VArr l) ->
  getProp bs (s2j "length") = Ok len -> strictEqZero len = false ->
  snd (onResponse st status body) = [Uncaught TypeError].
Proof.
  intros Hs Hv Hst Hok Hb Tb Na Hl Hz.
  unfold onResponse, process. unfold_M. rewrite Hs, Hv, Hst, Hok, Hb, Tb.
  unfold doAllSyncsOn. rewrite Hl, Hz.
  destruct bs; try reflexivity. now elim (Na l).
Qed.

Lemma bidder_status_not_array_witness :
  snd (onResponse boot 200 (q' "{'status':'ok','bidder_status':{'a':{'no_cookie':true}}}"))
  = [Uncaught TypeError].
Proof.
  eapply (bidder_status_not_array boot 200
            (q' "{'status':'ok','bidder_status':{'a':{'no_cookie':true}}}")
            _ (VStr (s2j "ok"))
            (VObj [(s2j "a", VObj [(s2j "no_cookie", VBool true)])]) VUndef);
    try reflexivity.
  intros l; discriminate.
Defined.

(* ================================================================== *)
(** ** The URL validator *)
(* ================================================================== *)

Lemma matches_Rep (lo : nat) (hi : option nat) (a : re) (s : jstring)
  (k : jstring -> bool) :
  matches (Rep lo hi a) s k
  = repLoop (matches a) k
      (match hi with Some h => h | None => (lo + List.length s)%nat end) lo s.
Proof. reflexivity. Qed.

Lemma repLoop_all (P : N -> bool) (m : jstring -> (jstring -> bool) -> bool)
  (k : jstring -> bool) :
  (forall s q, (forall x, q x = true -> forallb P x = true) ->
               m s q = true -> forallb P s = true) ->
  (forall x, k x = true -> forallb P x = true) ->
  forall fuel need s, repLoop m k fuel need s = true -> forallb P s = true.
Proof.
  intros Hm Hk. induction fuel as [|f IH]; intros need s H.
  - destruct need; simpl in H; [now apply Hk | discriminate].
  - destruct need as [|need]; simpl in H.
    + match type of H with (if ?b then _ else _) = _ => destruct b eqn:E end;
        [|now apply Hk].
      apply (Hm s _) in E; [exact E|]. intros x Hx.
      destruct (List.length x <? List.length s)%nat; [|discriminate].
      now apply (IH 0%nat).
    + apply (Hm s _) in H; [exact H|]. intros x Hx. now apply (IH need).
Qed.

Lemma matches_all (P : N -> bool) (r : re) :
  classesIn P r ->
  forall s k, (forall x, k x = true -> forallb P x = true) ->
              matches r s k = true -> forallb P s = true.
Proof.
  induction r as [|p|a IHa b IHb|a IHa b IHb|lo hi a IHa|a IHa|];
    intros Hc s k Hk H.
  - now apply Hk.
  - simpl in H. destruct s as [|c s]; [discriminate|].
    destruct (p c) eqn:E; [|discriminate]. simpl. rewrite (Hc c E). now apply Hk.
  - destruct Hc as [Ha Hb]. simpl in H.
    apply (IHa Ha s _) in H; [exact H|]. intros x Hx. now apply (IHb Hb x k).
  - destruct Hc as [Ha Hb]. simpl in H.
    destruct (matches a s k) eqn:E; [now apply (IHa Ha s k) | now apply (IHb Hb s k)].
  - rewrite matches_Rep in H.
    apply (repLoop_all P (matches a) k) in H; auto.
    intros s0 q Hq Hs0. now apply (IHa Hc s0 q).
  - simpl in H. destruct (matches a s (fun _ => true)); [discriminate | now apply Hk].
  - simpl in H. destruct s; [reflexivity | discriminate].
Qed.

Lemma matches_closed (P : N -> bool) (r : re) :
  closes r = true -> classesIn P r ->
  forall s k, matches r s k = true -> forallb P s = true.
Proof.
  induction r as [|p|a IHa b IHb|a IHa b IHb|lo hi a IHa|a IHa|];
    intros Hz Hc s k H; try discriminate.
  - destruct Hc as [Ha Hb]. simpl in H, Hz.
    apply (matches_all P a Ha s _) in H; [exact H|].
    intros x Hx. now apply (IHb Hz Hb x k).
  - destruct Hc as [Ha Hb]. simpl in H, Hz. apply andb_true_iff in Hz as [Za Zb].
    destruct (matches a s k) eqn:E; [now apply (IHa Za Ha s k) | now apply (IHb Zb Hb s k)].
  - simpl in H. destruct s; [reflexivity | discriminate].
Qed.

Lemma asciiSpace_cases (c : N) :
  isAsciiSpace c = true -> In c [9; 10; 11; 12; 13; 32]%N.
Proof.
  unfold isAsciiSpace. intros H. apply existsb_exists in H as (x & Hx & E).
  apply N.eqb_eq in E. now subst.
Qed.

Ltac class_goal :=
  let c := fresh "c" in let H := fresh "H" in let E := fresh "E" in
  intros c H; destruct (isAsciiSpace c) eqn:E; [|reflexivity];
  apply asciiSpace_cases in E; simpl in E;
  repeat (destruct E as [<- | E]; [discriminate H|]); contradiction.

Lemma pattern_classes :
  classesIn (fun c => negb (isAsciiSpace c)) isValidUrlPattern.
Proof.
  unfold isValidUrlPattern, scheme, userinfo, publicIp, hostName, port, path,
    dotDigits, opt, plus, star, digit, nonSpace, alpha, alnum, alnumDash, oneOf, chr.
  cbn [seqs alts lit classesIn].
  repeat match goal with |- _ /\ _ => split end; try exact I; class_goal.
Qed.

(** X16. No address with a space, tab, line feed, vertical tab, form feed
    or carriage return anywhere in it passes [isValidUrl]. *)
Theorem isValidUrl_no_space (s : jstring) :
  test s = true -> forallb (fun c => negb (isAsciiSpace c)) s = true.
Proof.
  unfold test. apply matches_closed; [reflexivity | exact pattern_classes].
Qed.

Lemma isValidUrl_no_space_witness :
  forallb (fun c => negb (isAsciiSpace c)) (s2j "https://x.test/sync?a=1") = true.
Proof. apply isValidUrl_no_space. reflexivity. Defined.

Lemma repLoop_mono (m : jstring -> (jstring -> bool) -> bool)
  (k k' : jstring -> bool) :
  (forall s q q', (forall x, q x = true -> q' x = true) ->
                  m s q = true -> m s q' = true) ->
  (forall x, k x = true -> k' x = true) ->
  forall fuel need s, repLoop m k fuel need s = true ->
                      repLoop m k' fuel need s = true.
Proof.
  intros Hm Hk. induction fuel as [|f IH]; intros need s H.
  - destruct need; simpl in *; [now apply Hk | discriminate].
  - destruct need as [|need]; simpl in *.
    + match type of H with (if ?b then _ else _) = _ => destruct b eqn:E end.
      * erewrite Hm; [reflexivity | | exact E]. intros x Hx. simpl in *.
        destruct (List.length x <? List.length s)%nat; [|discriminate].
        now apply IH.
      * rewrite (Hk _ H).
        match goal with |- (if ?b then _ else _) = _ => destruct b end; reflexivity.
    + eapply Hm; [|exact H]. intros x Hx. now apply IH.
Qed.

Lemma matches_mono (r : re) :
  forall s k k', (forall x, k x = true -> k' x = true) ->
                 matches r s k = true -> matches r s k' = true.
Proof.
  induction r as [|p|a IHa b IHb|a IHa b IHb|lo hi a IHa|a IHa|];
    intros s k k' Hk H.
  - now apply Hk.
  - simpl in *. destruct s as [|c s]; [discriminate|].
    destruct (p c); [now apply Hk | discriminate].
  - simpl in *. eapply IHa; [|exact H]. intros x Hx. now apply (IHb x k k').
  - simpl in *. destruct (matches a s k) eqn:E.
    + now rewrite (IHa s k k' Hk E).
    + rewrite (IHb s k k' Hk H).
      match goal with |- (if ?b then _ else _) = _ => destruct b end; reflexivity.
  - rewrite matches_Rep in *. eapply repLoop_mono; [| exact Hk | exact H].
    intros s0 q q' Hq. now apply IHa.
  - simpl in *. destruct (matches a s (fun _ => true)); [discriminate | now apply Hk].
  - simpl in *. destruct s; [now apply Hk | discriminate].
Qed.

Lemma matches_opt (a : re) (s : jstring) (k : jstring -> bool) :
  matches (opt a) s k = true -> matches a s k = true \/ k s = true.
Proof.
  unfold opt. rewrite matches_Rep. simpl. intros H.
  match type of H with (if ?b then _ else _) = _ => destruct b eqn:E end; [|auto].
  left. eapply matches_mono; [|exact E]. intros x Hx. simpl in Hx.
  destruct (List.length x <? List.length s)%nat; [exact Hx | discriminate].
Qed.

Lemma matches_chr (a : ascii) (s : jstring) (k : jstring -> bool) :
  matches (chr a) s k = true ->
  exists c s', s = c :: s' /\ toUpper c = toUpper (ch a) /\ k s' = true.
Proof.
  simpl. destruct s as [|c s]; [discriminate|].
  destruct (toUpper c =? toUpper (ch a))%N eqn:E; [|discriminate].
  apply N.eqb_eq in E. eauto.
Qed.

Lemma matches_Seq (a b : re) (s : jstring) (k : jstring -> bool) :
  matches (Seq a b) s k = matches a s (fun s1 => matches b s1 k).
Proof. reflexivity. Qed.

Lemma matches_Alt (a b : re) (s : jstring) (k : jstring -> bool) :
  matches (Alt a b) s k = true -> matches a s k = true \/ matches b s k = true.
Proof. simpl. destruct (matches a s k); auto. Qed.

Lemma matches_lit (w : string) :
  forall s k, matches (lit w) s k = true ->
  exists p s', s = p ++ s' /\ map toUpper p = map toUpper (s2j w) /\ k s' = true.
Proof.
  induction w as [|a w IH]; intros s k H.
  - exists [], s. auto.
  - cbn [lit] in H. rewrite matches_Seq in H.
    apply matches_chr in H as (c & s1 & -> & Hc & H).
    apply IH in H as (p & s2 & -> & Hp & H).
    exists (c :: p), s2. repeat split; [|exact H].
    change (s2j (String a w)) with (ch a :: s2j w).
    cbn [map]. now rewrite Hp, Hc.
Qed.

(** X17. Every address that passes [isValidUrl] begins, letter case apart,
    with [//], [http://], [https://] or [ftp://]: no other scheme and no
    relative address passes. *)
Theorem isValidUrl_scheme (s : jstring) :
  test s = true ->
  exists w p rest, In w schemes /\ s = p ++ rest /\
                   map toUpper p = map toUpper w.
Proof.
  unfold test, isValidUrlPattern. cbn [seqs]. intros H.
  rewrite matches_Seq in H. unfold scheme in H. cbn [alts] in H.
  rewrite matches_Seq in H. apply matches_opt in H as [H | H].
  - rewrite matches_Seq in H. apply matches_Alt in H as [H | H].
    + rewrite matches_Seq in H.
      apply matches_lit in H as (p1 & s1 & -> & Hp1 & H).
      apply matches_opt in H as [H | H].
      * apply matches_chr in H as (c & s2 & -> & Hc & H).
        apply matches_chr in H as (c2 & s3 & -> & Hc2 & H).
        apply matches_lit in H as (p2 & s4 & -> & Hp2 & _).
        exists (s2j "https://"), (p1 ++ c :: c2 :: p2), s4.
        split; [simpl; tauto|]. split; [now rewrite <- app_assoc|].
        rewrite map_app. cbn [map]. rewrite Hp1, Hp2, Hc, Hc2. reflexivity.
      * apply matches_chr in H as (c2 & s3 & -> & Hc2 & H).
        apply matches_lit in H as (p2 & s4 & -> & Hp2 & _).
        exists (s2j "http://"), (p1 ++ c2 :: p2), s4.
        split; [simpl; tauto|]. split; [now rewrite <- app_assoc|].
        rewrite map_app. cbn [map]. rewrite Hp1, Hp2, Hc2. reflexivity.
    + apply matches_lit in H as (p1 & s1 & -> & Hp1 & H).
      apply matches_chr in H as (c2 & s3 & -> & Hc2 & H).
      apply matches_lit in H as (p2 & s4 & -> & Hp2 & _).
      exists (s2j "ftp://"), (p1 ++ c2 :: p2), s4.
      split; [simpl; tauto|]. split; [now rewrite <- app_assoc|].
      rewrite map_app. cbn [map]. rewrite Hp1, Hp2, Hc2. reflexivity.
  - apply matches_lit in H as (p & s1 & -> & Hp & _).
    exists (s2j "//"), p, s1. split; [simpl; tauto | auto].
Qed.

Lemma isValidUrl_scheme_witness :
  exists w p rest, In w schemes /\ s2j "HTTPS://x.test/sync" = p ++ rest /\
                   map toUpper p = map toUpper w.
Proof. apply isValidUrl_scheme. reflexivity. Defined.

(* ================================================================== *)
(** ** Messages that are not consent data *)
(* ================================================================== *)

Lemma handled_app (t1 t2 : list action) :
  handled (t1 ++ t2) = handled t1 ++ handled t2.
Proof. apply filter_app. Qed.

(** X18. The listener ignores every message that is not consent data, a
    message with no readable [type] included: taken out of any sequence of
    events, from any state, such messages leave the final state of the page
    and all it does unchanged, the exceptions their [data] raised apart. *)
Theorem other_messages_ignored (cfg : config) (evs : list event) (st : page) :
  fst (deliver (step cfg) st evs) = fst (deliver (step cfg) st (consentOnly evs)) /\
  handled (snd (deliver (step cfg) st evs)) =
  handled (snd (deliver (step cfg) st (consentOnly evs))).
Proof.
  revert st. induction evs as [|ev evs IH]; intros st; [split; reflexivity|].
  unfold consentOnly. cbn [filter]. fold (consentOnly evs).
  destruct (isOtherMessage ev) eqn:O; cbn [negb].
  - destruct ev as [data| | |]; try discriminate.
    cbn [isOtherMessage] in O. apply negb_true_iff in O.
    destruct (onMessage_other cfg st data O) as [S T].
    cbn [deliver]. change (step cfg st (EMessage data)) with (onMessage cfg st data).
    destruct (onMessage cfg st data) as [st1 t1]. cbn [fst snd] in S, T. subst st1.
    specialize (IH st).
    destruct (deliver (step cfg) st evs) as [st2 t2]. cbn [fst snd] in *.
    split; [apply IH|]. rewrite handled_app, <- (proj2 IH).
    destruct T as [-> | [-> _]]; reflexivity.
  - cbn [deliver]. destruct (step cfg st ev) as [st1 t1].
    specialize (IH st1).
    destruct (deliver (step cfg) st1 evs) as [st2 t2].
    destruct (deliver (step cfg) st1 (consentOnly evs)) as [st3 t3].
    cbn [fst snd] in *. split; [apply IH|].
    rewrite !handled_app. now rewrite (proj2 IH).
Qed.
